(** * Verification of [tools/generate_stops_geojson.py]

    A shallow embedding of the GTFS-to-GeoJSON pipeline: archive loading,
    stop identifier harmonisation, stop filtering, the stop_times / trips /
    routes join and the assembly of the GeoJSON features, followed by the
    properties stated for them.

    Conventions of the embedding.
    - A Python [str] is a [string]; a character is an [ascii].  The
      character tests of the code (whitespace for [strip], decimal digits
      for [int] and [float], letters for [lower] and [upper]) are modelled
      on the ASCII range.
    - A row produced by [csv.DictReader] is a finite map from field names
      to values ([gmap string string]); [row.get(k)] is [row !! k].
    - Dictionaries whose iteration order the code observes ([datasets],
      [consolidated_stops], [clean]) are insertion-ordered association
      lists ([odict]); dictionaries that are only looked up ([route_info],
      [trip_to_route], [stop_routes]) are [gmap]s.
    - The value of [float(s)] is a NaN, an infinity (also for a literal
      beyond the binary64 range), or the decimal number denoted by the
      literal ([pyfloat]); the rounding of a finite value to binary64 is
      not modelled.
    - What the code takes from its environment is a parameter: the CSV
      reader ([read_csv_from_bytes]), the order in which a Python set is
      iterated ([set_order]) and the clock ([now]). *)

From Stdlib Require Import ZArith NArith List Ascii String Bool Lia.
From stdpp Require Import base gmap strings list fin_maps sorting.

Local Open Scope Z_scope.
Set Warnings "-clear-no-such-hyp".

(* ===================================================================== *)
(** ** Python string primitives *)
(* ===================================================================== *)

Module Py.

Definition code (c : ascii) : N := N_of_ascii c.

(** [str.isspace] on ASCII: TAB, LF, VT, FF, CR, FS, GS, RS, US, SPACE. *)
Definition is_space (c : ascii) : bool :=
  ((9 <=? code c) && (code c <=? 13))%N ||
  ((28 <=? code c) && (code c <=? 32))%N.

Definition is_digit (c : ascii) : bool :=
  ((48 <=? code c) && (code c <=? 57))%N.

Definition digit_val (c : ascii) : N := (code c - 48)%N.

Definition is_upper (c : ascii) : bool :=
  ((65 <=? code c) && (code c <=? 90))%N.

Definition is_lower (c : ascii) : bool :=
  ((97 <=? code c) && (code c <=? 122))%N.

Definition lower_char (c : ascii) : ascii :=
  if is_upper c then ascii_of_N (code c + 32) else c.

Definition upper_char (c : ascii) : ascii :=
  if is_lower c then ascii_of_N (code c - 32) else c.

Fixpoint map_string (f : ascii -> ascii) (s : string) : string :=
  match s with
  | EmptyString => EmptyString
  | String c r => String (f c) (map_string f r)
  end.

(** [s.lower()] and [s.upper()]. *)
Definition lower : string -> string := map_string lower_char.
Definition upper : string -> string := map_string upper_char.

(** [s.lstrip()], [s.rstrip()], [s.strip()]. *)
Fixpoint lstrip (s : string) : string :=
  match s with
  | EmptyString => EmptyString
  | String c r => if is_space c then lstrip r else s
  end.

Fixpoint rstrip (s : string) : string :=
  match s with
  | EmptyString => EmptyString
  | String c r =>
      match rstrip r with
      | EmptyString => if is_space c then EmptyString else String c EmptyString
      | r' => String c r'
      end
  end.

Definition strip (s : string) : string := rstrip (lstrip s).

(** [s.startswith(p)] and [s.endswith(p)]. *)
Fixpoint startswith (s p : string) : bool :=
  match p, s with
  | EmptyString, _ => true
  | String _ _, EmptyString => false
  | String a p', String b s' => Ascii.eqb a b && startswith s' p'
  end.

Definition endswith (s p : string) : bool :=
  startswith (String.rev s) (String.rev p).

(** Truthiness of a string, and the idiom [x or d] where [x] is the
    result of [dict.get] ([None] when the key is absent). *)
Definition truthy (s : string) : bool :=
  match s with EmptyString => false | _ => true end.

Definition or_else (x : option string) (d : string) : string :=
  match x with
  | Some s => if truthy s then s else d
  | None => d
  end.

(** [x or y] where both are results of [dict.get]. *)
Definition or_get (x y : option string) : option string :=
  match x with
  | Some s => if truthy s then Some s else y
  | None => y
  end.

(** *** Numeric literals *)

(** The tail of a [digitpart]: digits, each optionally preceded by a
    single underscore.  Returns the accumulated value, the number of
    digits read and the unread rest. *)
Fixpoint digits_loop (acc : N) (cnt : nat) (s : string) : N * nat * string :=
  match s with
  | String c r =>
      if is_digit c then digits_loop (10 * acc + digit_val c)%N (S cnt) r
      else if Ascii.eqb c "_" then
        match r with
        | String d r' =>
            if is_digit d
            then digits_loop (10 * acc + digit_val d)%N (S cnt) r'
            else (acc, cnt, s)
        | EmptyString => (acc, cnt, s)
        end
      else (acc, cnt, s)
  | EmptyString => (acc, cnt, s)
  end.

(** [digitpart ::= digit (["_"] digit)*] *)
Definition digitpart (s : string) : option (N * nat * string) :=
  match s with
  | String c r => if is_digit c then Some (digits_loop (digit_val c) 1 r) else None
  | EmptyString => None
  end.

(** An optional sign; [true] is a minus. *)
Definition sign (s : string) : bool * string :=
  match s with
  | String c r =>
      if Ascii.eqb c "-" then (true, r)
      else if Ascii.eqb c "+" then (false, r)
      else (false, s)
  | EmptyString => (false, s)
  end.

(** [int(s)] in base 10: surrounding whitespace, an optional sign and a
    [digitpart]; [None] stands for [ValueError]. *)
Definition int (s : string) : option Z :=
  let '(neg, r) := sign (strip s) in
  match digitpart r with
  | Some (n, _, EmptyString) => Some (if neg then - Z.of_N n else Z.of_N n)
  | _ => None
  end.

(** The value of [float(s)]: a NaN, an infinity, or a finite number given
    by the decimal literal it was read from. *)
Inductive pyfloat : Type :=
| Fnan
| Finf (neg : bool)
| Fdec (neg : bool) (mantissa : N) (exp10 : Z).

Definition is_finite (x : pyfloat) : bool :=
  match x with Fdec _ _ _ => true | _ => false end.

(** The whitespace that [float] skips around an ASCII literal: TAB, LF,
    VT, FF, CR and SPACE ([Py_ISSPACE]); unlike [str.strip] it leaves FS,
    GS, RS and US in place. *)
Definition is_cspace (c : ascii) : bool :=
  ((9 <=? code c) && (code c <=? 13))%N || (code c =? 32)%N.

Fixpoint lskip (s : string) : string :=
  match s with
  | EmptyString => EmptyString
  | String c r => if is_cspace c then lskip r else s
  end.

Fixpoint rskip (s : string) : string :=
  match s with
  | EmptyString => EmptyString
  | String c r =>
      match rskip r with
      | EmptyString => if is_cspace c then EmptyString else String c EmptyString
      | r' => String c r'
      end
  end.

Definition float_strip (s : string) : string := rskip (lskip s).

(** A decimal [m * 10 ^ e] at or above [2^1024 - 2^970], the midpoint
    between the largest binary64 number and [2^1024], rounds to an
    infinity. *)
Definition overflow_bound : Z := 2 ^ 1024 - 2 ^ 970.

Definition overflows (m : N) (e : Z) : bool :=
  if 0 <=? e then overflow_bound <=? Z.of_N m * 10 ^ e
  else overflow_bound * 10 ^ (- e) <=? Z.of_N m.

(** [number ::= [digitpart] "." digitpart | digitpart ["."]] *)
Definition number (s : string) : option (N * Z * string) :=
  match digitpart s with
  | Some (ip, _, String "." r) =>
      match digitpart r with
      | Some (fp, n, r') =>
          Some ((ip * 10 ^ N.of_nat n + fp)%N, - Z.of_nat n, r')
      | None => Some (ip, 0, r)
      end
  | Some (ip, _, r) => Some (ip, 0, r)
  | None =>
      match s with
      | String "." r =>
          match digitpart r with
          | Some (fp, n, r') => Some (fp, - Z.of_nat n, r')
          | None => None
          end
      | _ => None
      end
  end.

(** [exponent ::= ("e" | "E") [sign] digitpart], which must end the literal. *)
Definition exponent (s : string) : option Z :=
  match s with
  | EmptyString => Some 0
  | String c r =>
      if Ascii.eqb c "e" || Ascii.eqb c "E" then
        let '(neg, r') := sign r in
        match digitpart r' with
        | Some (n, _, EmptyString) =>
            Some (if neg then - Z.of_N n else Z.of_N n)
        | _ => None
        end
      else None
  end.

(** [float(s)]: surrounding whitespace, an optional sign, then [inf],
    [infinity] or [nan] in any letter case, or a decimal [floatnumber],
    which gives an infinity when it is beyond the binary64 range; [None]
    stands for [ValueError]. *)
Definition float (s : string) : option pyfloat :=
  let '(neg, r) := sign (float_strip s) in
  let w := lower r in
  if String.eqb w "inf" || String.eqb w "infinity" then Some (Finf neg)
  else if String.eqb w "nan" then Some Fnan
  else
    match number r with
    | Some (m, e, r') =>
        match exponent r' with
        | Some x => Some (if overflows m (e + x) then Finf neg else Fdec neg m (e + x))
        | None => None
        end
    | None => None
    end.

End Py.

(* ===================================================================== *)
(** ** Insertion-ordered dictionaries *)
(* ===================================================================== *)

(** A Python [dict] (or [OrderedDict]) whose iteration order is observed:
    the pairs in insertion order, keys pairwise distinct. *)
Definition odict (V : Type) : Type := list (string * V).

(** [d.get(k)] *)
Fixpoint odict_get {V} (k : string) (d : odict V) : option V :=
  match d with
  | [] => None
  | (k', v) :: r => if decide (k' = k) then Some v else odict_get k r
  end.

(** [k in d] *)
Definition odict_mem {V} (k : string) (d : odict V) : bool :=
  match odict_get k d with Some _ => true | None => false end.

(** [d[k] = v]: an existing key keeps its position and takes the new
    value, a new key goes to the end. *)
Fixpoint odict_set {V} (k : string) (v : V) (d : odict V) : odict V :=
  match d with
  | [] => [(k, v)]
  | (k', v') :: r =>
      if decide (k' = k) then (k, v) :: r else (k', v') :: odict_set k v r
  end.

Definition odict_keys {V} (d : odict V) : list string := fst <$> d.

(** The value that the last pair with key [k] carries: what a dictionary
    holds for [k] after the pairs were written into it in order. *)
Fixpoint assoc_last {V} (k : string) (l : list (string * V)) : option V :=
  match l with
  | [] => None
  | (k', v) :: r =>
      match assoc_last k r with
      | Some v' => Some v'
      | None => if decide (k' = k) then Some v else None
      end
  end.

(* ===================================================================== *)
(** ** Data model *)
(* ===================================================================== *)

(** One row of a table: field name to raw value. *)
Abbreviation RawRow := (gmap string string).

(** The value stored in [datasets] for one agency. *)
Record Dataset : Type := mkDataset {
  stops : list RawRow;
  routes : list RawRow;
  trips : list RawRow;
  stop_times : list RawRow;
  source_filename : string
}.

(** A ZIP archive on disk: whether the path exists, its file name and its
    members (name and content) in directory order. *)
Record Archive : Type := mkArchive {
  zexists : bool;
  zname : string;
  zmembers : list (string * list Byte.byte)
}.

(** The values of the [clean] dictionary. *)
Record CleanStop : Type := mkCleanStop {
  cs_stop_id : string;
  cs_orig_stop_id : option string;
  cs_agency : option string;
  cs_stop_name : string;
  cs_stop_code : string;
  cs_location_type : Z;
  cs_parent_station : string;
  cs_stop_lat : Py.pyfloat;
  cs_stop_lon : Py.pyfloat
}.

(** The values of [route_info]. *)
Record RouteMeta : Type := mkRouteMeta {
  route_id : string;
  route_short_name : string;
  route_long_name : string;
  agency : string
}.

(** The emitted GeoJSON document. *)
Record Geometry : Type := mkGeometry {
  g_type : string;
  coordinates : list Py.pyfloat
}.

Record Properties : Type := mkProperties {
  p_stop_id : string;
  p_orig_stop_id : option string;
  p_agency : option string;
  p_name : string;
  p_code : string;
  p_location_type : Z;
  p_parent_station : string;
  routes_serving : list string
}.

Record Feature : Type := mkFeature {
  f_type : string;
  f_id : string;
  geometry : Geometry;
  properties : Properties
}.

Record Metadata : Type := mkMetadata {
  date_generated : string;
  gtfs_source : string;
  license : string
}.

Record FeatureCollection : Type := mkFeatureCollection {
  fc_type : string;
  fc_name : string;
  metadata : Metadata;
  features : list Feature
}.

(* ===================================================================== *)
(** ** Archive loading *)
(* ===================================================================== *)

(** [re.sub(r'[^A-Za-z0-9_]+', '_', stem)]: every maximal run of characters
    outside [A-Za-z0-9_] becomes one underscore.  [in_run] tells that the
    previous character already belonged to such a run. *)
Definition is_word_char (c : ascii) : bool :=
  Py.is_upper c || Py.is_lower c || Py.is_digit c || Ascii.eqb c "_".

Fixpoint sanitize_go (in_run : bool) (s : string) : string :=
  match s with
  | EmptyString => EmptyString
  | String c r =>
      if is_word_char c then String c (sanitize_go false r)
      else if in_run then sanitize_go true r
      else String "_" (sanitize_go true r)
  end.

Definition sanitize (s : string) : string := sanitize_go false s.

(** The agency code that [load_gtfs_archives_from_local] derives from the
    stem of a file name. *)
Definition agency_code (stem : string) : string := Py.upper (sanitize stem).

(** [load_gtfs_archives_from_local], on the sorted result of the glob given
    as pairs of a file stem and the archive. *)
Definition load_gtfs_archives_from_local (zips : list (string * Archive))
  : list (string * Archive) :=
  fold_left (fun out '(stem, z) => out ++ [(agency_code stem, z)]) zips [].

(** [zf.open(name)]: the directory of a [ZipFile] is keyed by member
    name, so the last member of that name is the one opened. *)
Definition zip_open (name : string) (ms : list (string * list Byte.byte))
  : option (list Byte.byte) :=
  assoc_last name ms.

Section Loader.

(** [read_csv_from_bytes] is the CSV reader of the standard library
    behind a delimiter sniffer; the pipeline only uses the rows it
    returns. *)
Variable read_csv_from_bytes : list Byte.byte -> list RawRow.

Definition read_csv_from_zip (z : Archive) (member_name : string)
  : option (list RawRow) :=
  if negb (zexists z) then None
  else
    let candidates :=
      filter (fun n => Is_true (Py.endswith (Py.lower n) (Py.lower member_name)))
             (fst <$> zmembers z) in
    match candidates with
    | [] => None
    | c :: _ =>
        match zip_open c (zmembers z) with
        | Some data => Some (read_csv_from_bytes data)
        | None => None
        end
    end.

(** [x or []] for the result of [read_csv_from_zip]. *)
Definition or_empty (x : option (list RawRow)) : list RawRow :=
  match x with
  | Some (r :: l) => r :: l
  | _ => []
  end.

Definition extract_one (z : Archive) : Dataset :=
  {| stops := or_empty (read_csv_from_zip z "stops.txt");
     routes := or_empty (read_csv_from_zip z "routes.txt");
     trips := or_empty (read_csv_from_zip z "trips.txt");
     stop_times := or_empty (read_csv_from_zip z "stop_times.txt");
     source_filename := zname z |}.

Definition extract_relevant_tables (archives : list (string * Archive))
  : odict Dataset :=
  fold_left (fun datasets '(agency_code, zpath) =>
               odict_set agency_code (extract_one zpath) datasets)
            archives [].

End Loader.

(* ===================================================================== *)
(** ** Identifier harmonisation *)
(* ===================================================================== *)

(** [f'{ag}_{stop_id}' if prefix else stop_id] *)
Definition new_id (prefix : bool) (ag stop_id : string) : string :=
  if prefix then ag +:+ "_" +:+ stop_id else stop_id.

(** The row stored for a stop: a copy of the row with the two metadata
    fields set. *)
Definition consolidated_row (ag stop_id : string) (row : RawRow) : RawRow :=
  <["_agency" := ag]> (<["_orig_stop_id" := stop_id]> row).

(** The body of the inner loop of [harmonize_and_consolidate]. *)
Definition harmonize_row (prefix : bool) (ag : string)
    (acc : odict RawRow * gmap string string) (row : RawRow)
  : odict RawRow * gmap string string :=
  let stop_id := Py.strip (Py.or_else (row !! "stop_id") "") in
  if negb (Py.truthy stop_id) then acc
  else
    let nid := new_id prefix ag stop_id in
    if odict_mem nid acc.1 then acc
    else (odict_set nid (consolidated_row ag stop_id row) acc.1,
          <[nid := ag]> acc.2).

Definition harmonize_and_consolidate (datasets : odict Dataset) (prefix : bool)
  : odict RawRow * gmap string string :=
  fold_left (fun acc '(ag, ds) => fold_left (harmonize_row prefix ag) (stops ds) acc)
            datasets ([], ∅).

(* ===================================================================== *)
(** ** Stop filter *)
(* ===================================================================== *)

(** [row.get('stop_lat') or row.get('lat') or ''] and its longitude twin. *)
Definition lat_field (row : RawRow) : string :=
  Py.or_else (Py.or_get (row !! "stop_lat") (row !! "lat")) "".

Definition lon_field (row : RawRow) : string :=
  Py.or_else (Py.or_get (row !! "stop_lon") (row !! "lon")) "".

(** The integer the filter reads from [location_type]. *)
Definition location_type_of (row : RawRow) : Z :=
  let lt := Py.strip (default "" (row !! "location_type")) in
  let lt := if decide (lt = "") then "0" else lt in
  match Py.int lt with
  | Some i => i
  | None => 0
  end.

(** The body of the loop of [filter_and_clean_stops]: the record stored
    for the row, or [None] when the row is skipped. *)
Definition clean_row (sid : string) (row : RawRow) : option CleanStop :=
  let lt_i := location_type_of row in
  let lat := lat_field row in
  let lon := lon_field row in
  match Py.float lat, Py.float lon with
  | Some lat_v, Some lon_v =>
      if negb ((lt_i =? 0) || (lt_i =? 1)) then None
      else Some {| cs_stop_id := sid;
                   cs_orig_stop_id := row !! "_orig_stop_id";
                   cs_agency := row !! "_agency";
                   cs_stop_name :=
                     Py.or_else (Py.or_get (row !! "stop_name") (row !! "stop_desc")) "";
                   cs_stop_code := Py.or_else (row !! "stop_code") "";
                   cs_location_type := lt_i;
                   cs_parent_station := Py.or_else (row !! "parent_station") "";
                   cs_stop_lat := lat_v;
                   cs_stop_lon := lon_v |}
  | _, _ => None
  end.

Definition filter_and_clean_stops (consolidated_stops : odict RawRow)
  : odict CleanStop :=
  fold_left (fun clean '(sid, row) =>
               match clean_row sid row with
               | Some c => odict_set sid c clean
               | None => clean
               end)
            consolidated_stops [].

(* ===================================================================== *)
(** ** Route index *)
(* ===================================================================== *)

(** [(ag + '_') if prefix else ''] *)
Definition ag_prefix (prefix : bool) (ag : string) : string :=
  if prefix then ag +:+ "_" else "".

(** [(r.get(field) or '').strip()] *)
Definition key_of (field : string) (r : RawRow) : string :=
  Py.strip (Py.or_else (r !! field) "").

Definition add_route (pfx ag : string) (route_info : gmap string RouteMeta)
    (r : RawRow) : gmap string RouteMeta :=
  let rid := key_of "route_id" r in
  if negb (Py.truthy rid) then route_info
  else
    let rid_p := pfx +:+ rid in
    <[rid_p := {| route_id := rid_p;
                  route_short_name :=
                    Py.or_else (Py.or_get (r !! "route_short_name") (r !! "route_id")) "";
                  route_long_name := Py.or_else (r !! "route_long_name") "";
                  agency := ag |}]> route_info.

Definition add_trip (pfx : string) (trip_to_route : gmap string string)
    (t : RawRow) : gmap string string :=
  let tid := key_of "trip_id" t in
  if negb (Py.truthy tid) then trip_to_route
  else
    let tid_p := pfx +:+ tid in
    let rid := key_of "route_id" t in
    if Py.truthy rid then <[tid_p := pfx +:+ rid]> trip_to_route
    else trip_to_route.

Definition build_route_mappings (datasets : odict Dataset) (prefix : bool)
  : gmap string RouteMeta * gmap string string :=
  fold_left (fun acc '(ag, ds) =>
               let pfx := ag_prefix prefix ag in
               (fold_left (add_route pfx ag) (routes ds) acc.1,
                fold_left (add_trip pfx) (trips ds) acc.2))
            datasets (∅, ∅).

(* ===================================================================== *)
(** ** Stop to routes join *)
(* ===================================================================== *)

Definition add_stop_time (prefix : bool) (pfx : string)
    (trip_to_route : gmap string string)
    (stop_routes : gmap string (gset string)) (st : RawRow)
  : gmap string (gset string) :=
  let sid := key_of "stop_id" st in
  if negb (Py.truthy sid) then stop_routes
  else
    let sid_p := if prefix then pfx +:+ sid else sid in
    let tid := key_of "trip_id" st in
    if negb (Py.truthy tid) then stop_routes
    else
      let tid_p := if prefix then pfx +:+ tid else tid in
      match trip_to_route !! tid_p with
      | Some rid_p =>
          if Py.truthy rid_p
          then <[sid_p := {[rid_p]} ∪ default ∅ (stop_routes !! sid_p)]> stop_routes
          else stop_routes
      | None => stop_routes
      end.

(** The accumulation loop of [build_stop_to_routes]. *)
Definition collect_stop_routes (datasets : odict Dataset)
    (trip_to_route : gmap string string) (prefix : bool)
  : gmap string (gset string) :=
  fold_left (fun acc '(ag, ds) =>
               fold_left (add_stop_time prefix (ag_prefix prefix ag) trip_to_route)
                         (stop_times ds) acc)
            datasets ∅.

(** [sorted(l)] on strings: ascending in the order of the code points. *)
Definition sorted (l : list string) : list string := merge_sort String.le l.

(** [build_stop_to_routes], for a given iteration order [set_order] of
    Python sets ([list(v)]); that order depends on string hashing and is
    not fixed by the language. *)
Definition build_stop_to_routes_in (set_order : gset string -> list string)
    (datasets : odict Dataset) (trip_to_route : gmap string string)
    (prefix : bool) : gmap string (list string) :=
  (fun v => sorted (set_order v)) <$> collect_stop_routes datasets trip_to_route prefix.

Definition build_stop_to_routes :=
  build_stop_to_routes_in elements.

(* ===================================================================== *)
(** ** Feature assembly *)
(* ===================================================================== *)

(** One turn of the loop over [rlist] in [create_geojson]. *)
Definition append_route (route_info : gmap string RouteMeta)
    (acc : list string) (rid : string) : list string :=
  match route_info !! rid with
  | Some meta =>
      if Py.truthy (route_short_name meta)
      then acc ++ [route_short_name meta]
      else acc ++ [rid]
  | None => acc ++ [rid]
  end.

Definition make_feature (stop_routes : gmap string (list string))
    (route_info : gmap string RouteMeta) (sid : string) (s : CleanStop)
  : Feature :=
  let coords := [cs_stop_lon s; cs_stop_lat s] in
  let rlist := default [] (stop_routes !! sid) in
  {| f_type := "Feature";
     f_id := sid;
     geometry := {| g_type := "Point"; coordinates := coords |};
     properties :=
       {| p_stop_id := cs_stop_id s;
          p_orig_stop_id := cs_orig_stop_id s;
          p_agency := cs_agency s;
          p_name := cs_stop_name s;
          p_code := cs_stop_code s;
          p_location_type := cs_location_type s;
          p_parent_station := cs_parent_station s;
          routes_serving := fold_left (append_route route_info) rlist [] |} |}.

(** [create_geojson]; [now] is the formatted value of [datetime.utcnow()]. *)
Definition create_geojson (now : string) (clean_stops : odict CleanStop)
    (stop_routes : gmap string (list string))
    (route_info : gmap string RouteMeta) : FeatureCollection :=
  {| fc_type := "FeatureCollection";
     fc_name := "Cyprus_Public_Transport_Stops";
     metadata :=
       {| date_generated := now;
          gtfs_source := "Cyprus National Access Point / MotionBusCard";
          license := "CC-BY-4.0" |};
     features :=
       fold_left (fun fs '(sid, s) => fs ++ [make_feature stop_routes route_info sid s])
                 clean_stops [] |}.

(* ===================================================================== *)
(** ** The pipeline of [main] *)
(* ===================================================================== *)

Section Pipeline.

Variable read_csv_from_bytes : list Byte.byte -> list RawRow.
Variable set_order : gset string -> list string.
Variable now : string.

(** [main] from [extract_relevant_tables] to [create_geojson], given the
    datasets. *)
Definition process (prefix skip_enrich : bool) (datasets : odict Dataset)
  : FeatureCollection :=
  let '(consolidated, stop_to_agency) := harmonize_and_consolidate datasets prefix in
  let clean_stops := filter_and_clean_stops consolidated in
  let '(route_info, trip_to_route) := build_route_mappings datasets prefix in
  let stop_routes :=
    if negb skip_enrich
    then build_stop_to_routes_in set_order datasets trip_to_route prefix
    else ∅ in
  create_geojson now clean_stops stop_routes route_info.

(** [main] after the archives are gathered: [None] is the exit with
    status 1 when there is no archive. *)
Definition main (prefix skip_enrich : bool) (archives : list (string * Archive))
  : option FeatureCollection :=
  match archives with
  | [] => None
  | _ => Some (process prefix skip_enrich
                       (extract_relevant_tables read_csv_from_bytes archives))
  end.

End Pipeline.

(* ===================================================================== *)
(** ** Concrete inputs *)
(* ===================================================================== *)

(** A row given as its fields. *)
Definition row_of (l : list (string * string)) : RawRow := list_to_map l.

Definition stop_ok : RawRow :=
  row_of [("stop_id", "1"); ("stop_lat", "35.1"); ("stop_lon", "33.3")].

(** A stop whose latitude is the token [nan]. *)
Definition stop_nan : RawRow :=
  row_of [("stop_id", "1"); ("stop_lat", "nan"); ("stop_lon", "33.0")].

(** The example of the specification: a latitude that is no number. *)
Definition stop_na : RawRow :=
  row_of [("stop_id", "1"); ("stop_lat", "N/A"); ("stop_lon", "33.0")].

(** A stop with aliased coordinate fields and an unreadable location type. *)
Definition stop_alias : RawRow :=
  row_of [("stop_id", "1"); ("lat", "35.1"); ("lon", "33.3");
          ("location_type", "x")].

(** An entrance (location type 2) with valid coordinates. *)
Definition stop_entrance : RawRow :=
  row_of [("stop_id", "1"); ("stop_lat", "35.1"); ("stop_lon", "33.3");
          ("location_type", "2")].

(** A dataset that only has a stops table. *)
Definition stops_only (rows : list RawRow) : Dataset :=
  {| stops := rows; routes := []; trips := []; stop_times := [];
     source_filename := "gtfs.zip" |}.

(** Two agencies that both use the stop id 1. *)
Definition two_agencies : odict Dataset :=
  [("A", stops_only [stop_ok]); ("B", stops_only [stop_ok])].

(** Stop ids that are blank, or padded with a blank. *)
Definition stop_blank : RawRow :=
  row_of [("stop_id", " "); ("stop_lat", "35.1"); ("stop_lon", "33.3")].

Definition stop_padded : RawRow :=
  row_of [("stop_id", " 7"); ("stop_lat", "35.1"); ("stop_lon", "33.3")].

Definition blank_agencies : odict Dataset :=
  [("A", stops_only [stop_blank]); ("B", stops_only [stop_blank])].

Definition padded_agencies : odict Dataset :=
  [("A", stops_only [stop_padded]); ("B", stops_only [stop_padded])].

(** Agency A with stop B_C, agency A_B with stop C. *)
Definition stop_b_c : RawRow :=
  row_of [("stop_id", "B_C"); ("stop_lat", "35.1"); ("stop_lon", "33.3")].

Definition stop_c : RawRow :=
  row_of [("stop_id", "C"); ("stop_lat", "34.7"); ("stop_lon", "33.0")].

Definition colliding_agencies : odict Dataset :=
  [("A", stops_only [stop_b_c]); ("A_B", stops_only [stop_c])].

(** One agency whose stop 1 is served by the trips T and U. *)
Definition trip_row (tid rid : string) : RawRow :=
  row_of [("trip_id", tid); ("route_id", rid)].

Definition stop_time_row (tid sid : string) : RawRow :=
  row_of [("trip_id", tid); ("stop_id", sid)].

Definition route_row (rid name : string) : RawRow :=
  row_of [("route_id", rid); ("route_short_name", name)].

(** Both trips run on route R, shown as 12. *)
Definition same_route_ds (ts : list RawRow) : Dataset :=
  {| stops := [stop_ok];
     routes := [route_row "R" "12"];
     trips := ts;
     stop_times := [stop_time_row "T" "1"; stop_time_row "U" "1"];
     source_filename := "a.zip" |}.

(** Trip T runs on route R (shown as 12), trip U on route Q (shown as 20). *)
Definition two_routes_ds : Dataset :=
  {| stops := [stop_ok];
     routes := [route_row "R" "12"; route_row "Q" "20"];
     trips := [trip_row "T" "R"; trip_row "U" "Q"];
     stop_times := [stop_time_row "T" "1"; stop_time_row "U" "1"];
     source_filename := "a.zip" |}.

(** Trip T is written twice, the second time on route Q (shown as 20). *)
Definition dup_trip_ds : Dataset :=
  {| stops := [stop_ok];
     routes := [route_row "R" "12"; route_row "Q" "20"];
     trips := [trip_row "T" "R"; trip_row "T" "Q"];
     stop_times := [stop_time_row "T" "1"];
     source_filename := "a.zip" |}.

(** Route R is written twice, the second time with the short name 13. *)
Definition dup_route_ds : Dataset :=
  {| stops := [stop_ok];
     routes := [route_row "R" "12"; route_row "R" "13"];
     trips := [trip_row "T" "R"];
     stop_times := [stop_time_row "T" "1"];
     source_filename := "a.zip" |}.

(** A generation date. *)
Definition a_date : string := "2024-01-01T00:00:00Z".

(** A stand-in for the CSV reader: an empty member has no rows, any other
    member has one row that carries the fields of all four tables. *)
Definition toy_csv (b : list Byte.byte) : list RawRow :=
  match b with
  | [] => []
  | _ => [row_of [("stop_id", "1"); ("stop_lat", "35.1"); ("stop_lon", "33.3");
                  ("trip_id", "T"); ("route_id", "R"); ("route_short_name", "12")]]
  end.

(** An archive with the four tables, and one without trips and stop_times. *)
Definition full_zip : Archive :=
  {| zexists := true; zname := "a.zip";
     zmembers := [("stops.txt", [Byte.x31]); ("routes.txt", [Byte.x31]);
                  ("trips.txt", [Byte.x31]); ("google_transit/STOP_TIMES.TXT", [Byte.x31])] |}.

Definition stops_only_zip : Archive :=
  {| zexists := true; zname := "b.zip";
     zmembers := [("stops.txt", [Byte.x31]); ("routes.txt", [Byte.x31])] |}.

(* ===================================================================== *)
(** ** Flat views of the loops *)
(* ===================================================================== *)

(** What one stop row offers to the consolidated mapping: its harmonised
    id and the row to store, or nothing when its [stop_id] is empty. *)
Definition candidate (prefix : bool) (ag : string) (row : RawRow)
  : option (string * RawRow) :=
  let stop_id := key_of "stop_id" row in
  if Py.truthy stop_id
  then Some (new_id prefix ag stop_id, consolidated_row ag stop_id row)
  else None.

(** The offers of all stop rows, in the order the loops visit them. *)
Definition candidates (prefix : bool) (datasets : odict Dataset)
  : list (string * RawRow) :=
  datasets ≫= (fun p => omap (candidate prefix p.1) (stops p.2)).

(** Insertion that keeps what a key already holds. *)
Definition first_wins {V} (acc : odict V) (p : string * V) : odict V :=
  if odict_mem p.1 acc then acc else odict_set p.1 p.2 acc.

(** The entry that one trips row writes into [trip_to_route]. *)
Definition trip_entry (pfx : string) (t : RawRow) : option (string * string) :=
  let tid := key_of "trip_id" t in
  let rid := key_of "route_id" t in
  if Py.truthy tid && Py.truthy rid then Some (pfx +:+ tid, pfx +:+ rid) else None.

Definition trip_entries (prefix : bool) (datasets : odict Dataset)
  : list (string * string) :=
  datasets ≫= (fun p => omap (trip_entry (ag_prefix prefix p.1)) (trips p.2)).

(** The entry that one routes row writes into [route_info]. *)
Definition route_entry (pfx ag : string) (r : RawRow) : option (string * RouteMeta) :=
  let rid := key_of "route_id" r in
  if Py.truthy rid
  then Some (pfx +:+ rid,
             {| route_id := pfx +:+ rid;
                route_short_name :=
                  Py.or_else (Py.or_get (r !! "route_short_name") (r !! "route_id")) "";
                route_long_name := Py.or_else (r !! "route_long_name") "";
                agency := ag |})
  else None.

Definition route_entries (prefix : bool) (datasets : odict Dataset)
  : list (string * RouteMeta) :=
  datasets ≫= (fun p => omap (route_entry (ag_prefix prefix p.1) p.1) (routes p.2)).

(** The harmonised stop and trip ids that one stop_times row joins, or
    nothing when one of them is empty. *)
Definition stop_time_link (pfx : string) (st : RawRow) : option (string * string) :=
  let sid := key_of "stop_id" st in
  let tid := key_of "trip_id" st in
  if Py.truthy sid && Py.truthy tid then Some (pfx +:+ sid, pfx +:+ tid) else None.

Definition stop_time_links (prefix : bool) (datasets : odict Dataset)
  : list (string * string) :=
  datasets ≫= (fun p => omap (stop_time_link (ag_prefix prefix p.1)) (stop_times p.2)).

(** The name under which [create_geojson] shows a route id. *)
Definition display_route (route_info : gmap string RouteMeta) (rid : string) : string :=
  match route_info !! rid with
  | Some meta => if Py.truthy (route_short_name meta) then route_short_name meta else rid
  | None => rid
  end.

(** A document with another generation date. *)
Definition with_date (d : string) (fc : FeatureCollection) : FeatureCollection :=
  {| fc_type := fc_type fc;
     fc_name := fc_name fc;
     metadata := {| date_generated := d;
                    gtfs_source := gtfs_source (metadata fc);
                    license := license (metadata fc) |};
     features := features fc |}.

(** The datasets with the trips table of one agency replaced. *)
Definition with_trips (ds : Dataset) (ts : list RawRow) : Dataset :=
  {| stops := stops ds; routes := routes ds; trips := ts;
     stop_times := stop_times ds; source_filename := source_filename ds |}.

(** What one joined pair of a stop and a trip adds to [stop_routes]. *)
Definition link_step (trip_to_route : gmap string string)
    (stop_routes : gmap string (gset string)) (p : string * string)
  : gmap string (gset string) :=
  match trip_to_route !! p.2 with
  | Some rid_p =>
      if Py.truthy rid_p
      then <[p.1 := {[rid_p]} ∪ default ∅ (stop_routes !! p.1)]> stop_routes
      else stop_routes
  | None => stop_routes
  end.

(** Two ordered dictionaries with the same keys in the same order and the
    same values except, possibly, under [k]. *)
Definition agree_but {V} (k : string) (d d' : odict V) : Prop :=
  Forall2 (fun p p' => p.1 = p'.1 /\ (p.1 <> k -> p.2 = p'.2)) d d'.

(** A stripped string starts with no whitespace. *)
Definition no_lead (s : string) : Prop :=
  match s with
  | EmptyString => True
  | String c _ => Py.is_space c = false
  end.

(* ===================================================================== *)
(** ** Further notions used by the statements *)
(* ===================================================================== *)

(** All characters of a string pass a test. *)
Fixpoint string_forall (p : ascii -> bool) (s : string) : bool :=
  match s with
  | EmptyString => true
  | String c r => p c && string_forall p r
  end.

(** The characters an agency code derived from a file name is made of:
    upper-case letters, digits and the underscore. *)
Definition is_code_char (c : ascii) : bool :=
  Py.is_upper c || Py.is_digit c || Ascii.eqb c "_".

(** The entry that the filter stores for a consolidated row, if any. *)
Definition kept (p : string * RawRow) : option (string * CleanStop) :=
  match clean_row p.1 p.2 with
  | Some c => Some (p.1, c)
  | None => None
  end.

(** A feature with its [routes_serving] list emptied. *)
Definition clear_routes (f : Feature) : Feature :=
  {| f_type := f_type f;
     f_id := f_id f;
     geometry := geometry f;
     properties :=
       {| p_stop_id := p_stop_id (properties f);
          p_orig_stop_id := p_orig_stop_id (properties f);
          p_agency := p_agency (properties f);
          p_name := p_name (properties f);
          p_code := p_code (properties f);
          p_location_type := p_location_type (properties f);
          p_parent_station := p_parent_station (properties f);
          routes_serving := [] |} |}.

(** An archive in which [stops.txt] occurs in a folder and at top level,
    the latter twice. *)
Definition nested_zip : Archive :=
  {| zexists := true; zname := "n.zip";
     zmembers := [("readme.md", [Byte.x30]); ("old/Stops.TXT", [Byte.x31]);
                  ("stops.txt", []); ("stops.txt", [Byte.x32])] |}.

(** Two routes of one agency that share the short name 12. *)
Definition shared_name_ds : Dataset :=
  {| stops := [stop_ok];
     routes := [route_row "R" "12"; route_row "Q" "12"];
     trips := [trip_row "T" "R"; trip_row "U" "Q"];
     stop_times := [stop_time_row "T" "1"; stop_time_row "U" "1";
                    stop_time_row "T" "1"; stop_time_row "V" "9"];
     source_filename := "a.zip" |}.

(** The same tables with the stop_times rows reordered and stated once. *)
Definition shared_name_ds' : Dataset :=
  {| stops := [stop_ok];
     routes := [route_row "R" "12"; route_row "Q" "12"];
     trips := [trip_row "T" "R"; trip_row "U" "Q"];
     stop_times := [stop_time_row "V" "9"; stop_time_row "U" "1"; stop_time_row "T" "1"];
     source_filename := "a.zip" |}.

(** Two lists of datasets with the same agencies in the same order and,
    agency by agency, the same stop_times rows up to order and repetition. *)
Definition same_stop_time_rows (d d' : odict Dataset) : Prop :=
  Forall2 (fun p q => p.1 = q.1 /\
                      forall st, st ∈ stop_times p.2 <-> st ∈ stop_times q.2) d d'.

(** Stops whose latitude is an infinity token, or a literal beyond the
    binary64 range. *)
Definition stop_inf : RawRow :=
  row_of [("stop_id", "1"); ("stop_lat", "-inf"); ("stop_lon", "33.0")].

Definition stop_huge : RawRow :=
  row_of [("stop_id", "1"); ("stop_lat", "1e400"); ("stop_lon", "33.0")].

(* ===================================================================== *)
(** ** Evaluation on small inputs *)
(* ===================================================================== *)

Example strip_ex : Py.strip "  a b  " = "a b".
Proof. reflexivity. Qed.

Example int_ex :
  Py.int " 1_0 " = Some 10 /\ Py.int "-2" = Some (-2) /\ Py.int "1.0" = None /\
  Py.int "" = None /\ Py.int "1__0" = None /\ Py.int "2_" = None.
Proof. repeat split; reflexivity. Qed.

Example float_ex :
  Py.float "35.1675" = Some (Py.Fdec false 351675 (-4)) /\
  Py.float " -3.e2 " = Some (Py.Fdec true 3 2) /\
  Py.float ".5" = Some (Py.Fdec false 5 (-1)) /\
  Py.float "NaN" = Some Py.Fnan /\
  Py.float "-Infinity" = Some (Py.Finf true) /\
  Py.float "N/A" = None /\ Py.float "" = None /\ Py.float "." = None /\
  Py.float "1e" = None /\ Py.float "1_.5" = None /\ Py.float "33,0" = None.
Proof. repeat split; reflexivity. Qed.

Example float_space_ex :
  Py.float (String (ascii_of_N 9) "35.1 ") = Some (Py.Fdec false 351 (-1)) /\
  Py.strip (String (ascii_of_N 28) "35.1") = "35.1" /\
  Py.float (String (ascii_of_N 28) "35.1") = None /\
  Py.float (String.append "35.1" (String (ascii_of_N 31) "")) = None.
Proof. repeat split; vm_compute; reflexivity. Qed.

Example float_range_ex :
  Py.float "1e400" = Some (Py.Finf false) /\
  Py.float "-1e400" = Some (Py.Finf true) /\
  Py.float "1.7976931348623157e308" =
    Some (Py.Fdec false 17976931348623157 292) /\
  Py.float "1.7976931348623159e308" = Some (Py.Finf false) /\
  Py.float "1e-400" = Some (Py.Fdec false 1 (-400)).
Proof. repeat split; vm_compute; reflexivity. Qed.

Example endswith_ex :
  Py.endswith (Py.lower "GTFS/Stops.TXT") (Py.lower "stops.txt") = true /\
  Py.endswith (Py.lower "stops.txt.bak") (Py.lower "stops.txt") = false.
Proof. split; reflexivity. Qed.

Example agency_code_ex :
  agency_code "lemesos-emel 2024" = "LEMESOS_EMEL_2024" /\
  agency_code "a b" = "A_B" /\ agency_code "a--b" = "A_B".
Proof. repeat split; reflexivity. Qed.

(* ===================================================================== *)
(** ** Facts about the string primitives *)
(* ===================================================================== *)

Lemma truthy_true_iff (s : string) : Py.truthy s = true <-> s <> "".
Proof. destruct s; simpl; split; congruence. Qed.

Lemma truthy_false_iff (s : string) : Py.truthy s = false <-> s = "".
Proof. destruct s; simpl; split; congruence. Qed.

Lemma lstrip_no_lead (s : string) : no_lead (Py.lstrip s).
Proof.
  induction s as [|c r IH]; simpl; [exact I|].
  destruct (Py.is_space c) eqn:E; [exact IH|exact E].
Qed.

Lemma lstrip_fixed (s : string) : no_lead s -> Py.lstrip s = s.
Proof. destruct s as [|c r]; simpl; [reflexivity|]. intros ->. reflexivity. Qed.

Lemma rstrip_no_lead (s : string) : no_lead s -> no_lead (Py.rstrip s).
Proof.
  destruct s as [|c r]; simpl; [exact id|]. intros E.
  destruct (Py.rstrip r); [rewrite E|]; exact E.
Qed.

Lemma rstrip_idem (s : string) : Py.rstrip (Py.rstrip s) = Py.rstrip s.
Proof.
  induction s as [|c r IH]; simpl; [reflexivity|].
  destruct (Py.rstrip r) as [|d r'] eqn:E.
  - destruct (Py.is_space c) eqn:Ec; simpl; [reflexivity|]. rewrite Ec. reflexivity.
  - change (Py.rstrip (String c (String d r'))) with
      (match Py.rstrip (String d r') with
       | EmptyString => if Py.is_space c then EmptyString else String c EmptyString
       | x => String c x
       end).
    rewrite IH. reflexivity.
Qed.

Lemma strip_idem (s : string) : Py.strip (Py.strip s) = Py.strip s.
Proof.
  unfold Py.strip.
  rewrite (lstrip_fixed (Py.rstrip (Py.lstrip s))).
  - apply rstrip_idem.
  - apply rstrip_no_lead, lstrip_no_lead.
Qed.

Lemma int_strip (s : string) : Py.int (Py.strip s) = Py.int s.
Proof. unfold Py.int. rewrite strip_idem. reflexivity. Qed.

Lemma float_empty : Py.float "" = None.
Proof. reflexivity. Qed.

Lemma app_cons (x : ascii) (a b : string) :
  String x a +:+ b = String x (a +:+ b).
Proof. reflexivity. Qed.

Lemma app_nil_l (b : string) : "" +:+ b = b.
Proof. reflexivity. Qed.

Lemma app_assoc_str (a b c : string) : (a +:+ b) +:+ c = a +:+ (b +:+ c).
Proof.
  induction a as [|x a IH]; [reflexivity|].
  rewrite !app_cons. f_equal. exact IH.
Qed.

Lemma app_length (a b : string) :
  String.length (a +:+ b) = (String.length a + String.length b)%nat.
Proof.
  induction a as [|x a IH]; [reflexivity|].
  rewrite app_cons. simpl. f_equal. exact IH.
Qed.

(** Appending a common suffix is injective. *)
Lemma app_inj_l (a b c : string) : a +:+ c = b +:+ c -> a = b.
Proof.
  revert b. induction a as [|x a IH]; intros [|y b] H.
  - reflexivity.
  - exfalso. apply (f_equal String.length) in H.
    rewrite !app_length in H. simpl in H. lia.
  - exfalso. apply (f_equal String.length) in H.
    rewrite !app_length in H. simpl in H. lia.
  - rewrite !app_cons in H. injection H as -> H. f_equal. apply IH. exact H.
Qed.

(* ===================================================================== *)
(** ** Facts about loops and ordered dictionaries *)
(* ===================================================================== *)

(** A property that holds before a loop and is kept by each turn holds
    after it. *)
Lemma fold_left_inv {A B} (P : A -> Prop) (f : A -> B -> A) (l : list B) (a : A) :
  P a -> (forall a b, b ∈ l -> P a -> P (f a b)) -> P (fold_left f l a).
Proof.
  revert a. induction l as [|b l IH]; intros a Ha Hf; simpl; [exact Ha|].
  apply IH.
  - apply Hf; [left|exact Ha].
  - intros a' b' Hb'. apply Hf. right. exact Hb'.
Qed.

Section odict_facts.
Context {V : Type}.
Implicit Types (d : odict V) (k : string) (v : V).

Lemma odict_get_elem k v d : odict_get k d = Some v -> (k, v) ∈ d.
Proof.
  induction d as [|[k' v'] d IH]; simpl; [discriminate|].
  destruct (decide (k' = k)) as [->|Hne].
  - intros [= ->]. left.
  - intros H. right. apply IH, H.
Qed.

Lemma odict_get_None k d : odict_get k d = None <-> k ∉ odict_keys d.
Proof.
  unfold odict_keys. induction d as [|[k' v'] d IH]; simpl.
  - split; [intros _; apply not_elem_of_nil|reflexivity].
  - rewrite not_elem_of_cons. destruct (decide (k' = k)) as [->|Hne].
    + split; [discriminate|]. intros [H _]. congruence.
    + rewrite IH. split; [intros H; split; [congruence|exact H]|intros [_ H]; exact H].
Qed.

Lemma odict_get_is_Some k d : is_Some (odict_get k d) <-> k ∈ odict_keys d.
Proof.
  rewrite <- not_eq_None_Some, odict_get_None.
  split; [apply dec_stable|]. intros H Hn. exact (Hn H).
Qed.

Lemma odict_mem_true k d : odict_mem k d = true <-> k ∈ odict_keys d.
Proof.
  rewrite <- odict_get_is_Some. unfold odict_mem.
  destruct (odict_get k d); split; try discriminate; eauto.
  intros [? ?]; discriminate.
Qed.

Lemma odict_get_nodup k v d :
  NoDup (odict_keys d) -> (k, v) ∈ d -> odict_get k d = Some v.
Proof.
  unfold odict_keys. induction d as [|[k' v'] d IH]; simpl.
  - intros _ H. inversion H.
  - rewrite NoDup_cons. intros [Hk Hd] H.
    apply elem_of_cons in H as [[= -> ->]|H].
    + rewrite decide_True; reflexivity.
    + destruct (decide (k' = k)) as [->|Hne]; [|apply IH; assumption].
      exfalso. apply Hk. change k with ((k, v).1). apply list_elem_of_fmap_2. exact H.
Qed.

Lemma odict_get_app k d1 d2 :
  odict_get k (d1 ++ d2) =
  match odict_get k d1 with Some v => Some v | None => odict_get k d2 end.
Proof.
  induction d1 as [|[k' v'] d1 IH]; simpl; [reflexivity|].
  destruct (decide (k' = k)); [reflexivity|exact IH].
Qed.

Lemma odict_get_set k k' v d :
  odict_get k' (odict_set k v d) =
  if decide (k = k') then Some v else odict_get k' d.
Proof.
  induction d as [|[k0 v0] d IH]; simpl.
  - destruct (decide (k = k')); reflexivity.
  - destruct (decide (k0 = k)) as [->|Hne]; simpl.
    + destruct (decide (k = k')); reflexivity.
    + rewrite IH. destruct (decide (k0 = k')) as [->|Hne'].
      * rewrite decide_False; [reflexivity|congruence].
      * reflexivity.
Qed.

Lemma odict_set_fresh k v d :
  odict_get k d = None -> odict_set k v d = d ++ [(k, v)].
Proof.
  induction d as [|[k0 v0] d IH]; simpl; [reflexivity|].
  destruct (decide (k0 = k)); [discriminate|]. intros H. f_equal. apply IH, H.
Qed.

Lemma odict_set_elem k v k' v' d :
  (k', v') ∈ odict_set k v d -> (k', v') = (k, v) \/ (k', v') ∈ d.
Proof.
  induction d as [|[k0 v0] d IH]; simpl.
  - intros H. apply list_elem_of_singleton in H. left. exact H.
  - rewrite elem_of_cons.
    destruct (decide (k0 = k)) as [->|Hne]; rewrite elem_of_cons; [tauto|].
    intros [H|H]; [tauto|]. destruct (IH H); tauto.
Qed.

Lemma odict_keys_set k v d :
  odict_keys (odict_set k v d) =
  if odict_mem k d then odict_keys d else odict_keys d ++ [k].
Proof.
  unfold odict_mem, odict_keys. induction d as [|[k0 v0] d IH]; [reflexivity|].
  cbn [odict_set odict_get].
  destruct (decide (k0 = k)) as [->|Hne]; [reflexivity|].
  rewrite !fmap_cons, IH. destruct (odict_get k d); reflexivity.
Qed.

Lemma odict_set_nodup k v d :
  NoDup (odict_keys d) -> NoDup (odict_keys (odict_set k v d)).
Proof.
  intros H. rewrite odict_keys_set.
  destruct (odict_mem k d) eqn:E; [exact H|].
  apply NoDup_app. split; [exact H|]. split; [|apply NoDup_singleton].
  intros x Hx Hx'. apply list_elem_of_singleton in Hx' as ->.
  apply odict_mem_true in Hx. congruence.
Qed.

End odict_facts.

(* ===================================================================== *)
(** ** The stop filter *)
(* ===================================================================== *)

Lemma or_get_None_empty (x y : option string) :
  x = None -> y = None -> Py.or_else (Py.or_get x y) "" = "".
Proof. intros -> ->. reflexivity. Qed.

Lemma or_else_present (x y : option string) (v : string) :
  x = Some v -> v <> "" -> Py.or_else (Py.or_get x y) "" = v.
Proof.
  intros -> Hv. simpl. apply truthy_true_iff in Hv. rewrite Hv. simpl.
  rewrite Hv. reflexivity.
Qed.

Lemma location_type_missing (row : RawRow) :
  row !! "location_type" = None -> location_type_of row = 0.
Proof. unfold location_type_of. intros ->. reflexivity. Qed.

Lemma location_type_present (row : RawRow) (v : string) :
  row !! "location_type" = Some v ->
  location_type_of row = match Py.int v with Some i => i | None => 0 end.
Proof.
  unfold location_type_of. intros ->. simpl.
  destruct (decide (Py.strip v = "")) as [E|E].
  - rewrite <- (int_strip v), E. reflexivity.
  - rewrite int_strip. reflexivity.
Qed.

Lemma clean_row_Some (sid : string) (row : RawRow) (c : CleanStop) :
  clean_row sid row = Some c ->
  Py.float (lat_field row) = Some (cs_stop_lat c) /\
  Py.float (lon_field row) = Some (cs_stop_lon c) /\
  cs_location_type c = location_type_of row /\
  (location_type_of row = 0 \/ location_type_of row = 1) /\
  cs_stop_id c = sid.
Proof.
  unfold clean_row.
  destruct (Py.float (lat_field row)) as [lat_v|]; [|discriminate].
  destruct (Py.float (lon_field row)) as [lon_v|]; [|discriminate].
  destruct (location_type_of row =? 0) eqn:E0; simpl.
  - intros [= <-]. simpl. apply Z.eqb_eq in E0. tauto.
  - destruct (location_type_of row =? 1) eqn:E1; simpl; [|discriminate].
    intros [= <-]. simpl. apply Z.eqb_eq in E1. tauto.
Qed.

Lemma clean_row_is_Some (sid : string) (row : RawRow) :
  is_Some (clean_row sid row) <->
  is_Some (Py.float (lat_field row)) /\ is_Some (Py.float (lon_field row)) /\
  (location_type_of row = 0 \/ location_type_of row = 1).
Proof.
  split.
  - intros [c Hc]. apply clean_row_Some in Hc as (Ha & Hb & _ & Ht & _).
    rewrite Ha, Hb. eauto.
  - intros ([lat_v Ha] & [lon_v Hb] & Ht). unfold clean_row. rewrite Ha, Hb.
    assert ((location_type_of row =? 0) || (location_type_of row =? 1) = true) as ->.
    { apply orb_true_iff. rewrite !Z.eqb_eq. exact Ht. }
    simpl. eauto.
Qed.

(** Every record of the output comes from a row that passes the checks. *)
Lemma filter_elem (consolidated : odict RawRow) (sid : string) (c : CleanStop) :
  (sid, c) ∈ filter_and_clean_stops consolidated ->
  exists row, (sid, row) ∈ consolidated /\ clean_row sid row = Some c.
Proof.
  unfold filter_and_clean_stops. revert sid c.
  apply (fold_left_inv (fun acc => forall sid c, (sid, c) ∈ acc -> _)).
  - intros sid c H. inversion H.
  - intros acc [k row] Hin IH sid c.
    destruct (clean_row k row) as [c'|] eqn:E; [|apply IH].
    intros H. apply odict_set_elem in H as [[= -> ->]|H]; [|apply IH, H].
    exists row. split; assumption.
Qed.

(** With distinct keys, what each key holds after the loop. *)
Lemma filter_fold_get (l : odict RawRow) (acc : odict CleanStop) (sid : string) :
  NoDup (odict_keys l) ->
  odict_get sid (fold_left (fun clean '(sid, row) =>
                              match clean_row sid row with
                              | Some c => odict_set sid c clean
                              | None => clean
                              end) l acc) =
  match odict_get sid l with
  | Some row =>
      match clean_row sid row with
      | Some c => Some c
      | None => odict_get sid acc
      end
  | None => odict_get sid acc
  end.
Proof.
  unfold odict_keys. revert acc.
  induction l as [|[k row] l IH]; intros acc Hnd; [reflexivity|].
  rewrite fmap_cons in Hnd. apply NoDup_cons in Hnd as [Hk Hnd].
  cbn [fold_left odict_get]. rewrite IH by exact Hnd.
  destruct (decide (k = sid)) as [->|Hne].
  - assert (odict_get sid l = None) as -> by (apply odict_get_None; exact Hk).
    destruct (clean_row sid row); [|reflexivity].
    rewrite odict_get_set, decide_True; reflexivity.
  - destruct (odict_get sid l) as [row'|].
    + destruct (clean_row sid row'); [reflexivity|].
      destruct (clean_row k row); [|reflexivity].
      rewrite odict_get_set, decide_False; [reflexivity|exact Hne].
    + destruct (clean_row k row); [|reflexivity].
      rewrite odict_get_set, decide_False; [reflexivity|exact Hne].
Qed.

Lemma filter_get (consolidated : odict RawRow) (sid : string) (row : RawRow) :
  NoDup (odict_keys consolidated) -> (sid, row) ∈ consolidated ->
  odict_get sid (filter_and_clean_stops consolidated) = clean_row sid row.
Proof.
  intros Hnd Hin. unfold filter_and_clean_stops.
  rewrite filter_fold_get by exact Hnd.
  rewrite (odict_get_nodup _ _ _ Hnd Hin). destruct (clean_row sid row); reflexivity.
Qed.

(* ===================================================================== *)
(** ** Identifier harmonisation: first seen wins *)
(* ===================================================================== *)

Section first_wins_facts.
Context {V : Type}.
Implicit Types (acc l : odict V) (k : string).

Lemma first_wins_get k l acc :
  odict_get k (fold_left first_wins l acc) =
  match odict_get k acc with Some v => Some v | None => odict_get k l end.
Proof.
  revert acc. induction l as [|[k0 v0] l IH]; intros acc.
  - simpl. destruct (odict_get k acc); reflexivity.
  - cbn [fold_left odict_get]. rewrite IH. unfold first_wins, odict_mem. simpl.
    destruct (odict_get k0 acc) as [w|] eqn:E0.
    + destruct (decide (k0 = k)) as [->|Hne]; [rewrite E0|]; reflexivity.
    + rewrite odict_get_set. destruct (decide (k0 = k)) as [->|Hne].
      * rewrite E0. reflexivity.
      * reflexivity.
Qed.

Lemma first_wins_nodup l acc :
  NoDup (odict_keys acc) -> NoDup (odict_keys (fold_left first_wins l acc)).
Proof.
  intros H. apply (fold_left_inv (fun a => NoDup (odict_keys a))); [exact H|].
  intros a [k0 v0] _ Ha. unfold first_wins. simpl.
  destruct (odict_mem k0 a); [exact Ha|]. apply odict_set_nodup, Ha.
Qed.

Lemma first_wins_elem l acc (p : string * V) :
  p ∈ fold_left first_wins l acc -> p ∈ acc \/ p ∈ l.
Proof.
  revert acc. induction l as [|[k0 v0] l IH]; intros acc; simpl; [tauto|].
  intros H. destruct (IH _ H) as [H'|H']; [|right; right; exact H'].
  unfold first_wins in H'. simpl in H'.
  destruct (odict_mem k0 acc); [left; exact H'|].
  destruct p as [k v]. apply odict_set_elem in H' as [->|H']; [right; left|left; exact H'].
Qed.

End first_wins_facts.

Lemma harmonize_row_fst (prefix : bool) (ag : string)
    (acc : odict RawRow * gmap string string) (row : RawRow) :
  (harmonize_row prefix ag acc row).1 =
  match candidate prefix ag row with
  | Some p => first_wins acc.1 p
  | None => acc.1
  end.
Proof.
  unfold harmonize_row, candidate, key_of, first_wins.
  destruct (Py.truthy (Py.strip (Py.or_else (row !! "stop_id") ""))); simpl; [|reflexivity].
  destruct (odict_mem _ acc.1); reflexivity.
Qed.

Lemma harmonize_rows_fst (prefix : bool) (ag : string) (rows : list RawRow)
    (acc : odict RawRow * gmap string string) :
  (fold_left (harmonize_row prefix ag) rows acc).1 =
  fold_left first_wins (omap (candidate prefix ag) rows) acc.1.
Proof.
  revert acc. induction rows as [|row rows IH]; intros acc; [reflexivity|].
  cbn [fold_left omap list_omap]. rewrite IH, harmonize_row_fst.
  destruct (candidate prefix ag row); reflexivity.
Qed.

Lemma harmonize_fold_fst (prefix : bool) (datasets : odict Dataset)
    (acc : odict RawRow * gmap string string) :
  (fold_left (fun acc '(ag, ds) => fold_left (harmonize_row prefix ag) (stops ds) acc)
             datasets acc).1 =
  fold_left first_wins (candidates prefix datasets) acc.1.
Proof.
  unfold candidates. revert acc.
  induction datasets as [|[ag ds] datasets IH]; intros acc; [reflexivity|].
  cbn [fold_left]. rewrite IH, harmonize_rows_fst.
  rewrite bind_cons, fold_left_app. reflexivity.
Qed.

(** The consolidated mapping is the list of offers, first seen wins. *)
Lemma harmonize_fst (datasets : odict Dataset) (prefix : bool) :
  (harmonize_and_consolidate datasets prefix).1 =
  fold_left first_wins (candidates prefix datasets) [].
Proof. apply harmonize_fold_fst. Qed.

Lemma consolidated_get (datasets : odict Dataset) (prefix : bool) (k : string) :
  odict_get k (harmonize_and_consolidate datasets prefix).1 =
  odict_get k (candidates prefix datasets).
Proof. rewrite harmonize_fst, first_wins_get. reflexivity. Qed.

Lemma consolidated_nodup (datasets : odict Dataset) (prefix : bool) :
  NoDup (odict_keys (harmonize_and_consolidate datasets prefix).1).
Proof. rewrite harmonize_fst. apply first_wins_nodup, NoDup_nil_2. Qed.

Lemma candidates_elem (prefix : bool) (datasets : odict Dataset) (p : string * RawRow) :
  p ∈ candidates prefix datasets <->
  exists ag ds row,
    (ag, ds) ∈ datasets /\ row ∈ stops ds /\ candidate prefix ag row = Some p.
Proof.
  unfold candidates. rewrite list_elem_of_bind. split.
  - intros ([ag ds] & H & Hin). apply list_elem_of_omap in H as (row & Hr & Hc).
    exists ag, ds, row. auto.
  - intros (ag & ds & row & Hin & Hr & Hc). exists (ag, ds). split; [|exact Hin].
    apply list_elem_of_omap. exists row. auto.
Qed.

(** Every consolidated entry is the offer of some stop row. *)
Lemma consolidated_elem (datasets : odict Dataset) (prefix : bool) (p : string * RawRow) :
  p ∈ (harmonize_and_consolidate datasets prefix).1 ->
  exists ag ds row,
    (ag, ds) ∈ datasets /\ row ∈ stops ds /\ candidate prefix ag row = Some p.
Proof.
  rewrite harmonize_fst. intros H. apply first_wins_elem in H as [H|H].
  - inversion H.
  - apply candidates_elem, H.
Qed.

Lemma candidate_Some (prefix : bool) (ag : string) (row : RawRow) :
  key_of "stop_id" row <> "" ->
  candidate prefix ag row =
  Some (new_id prefix ag (key_of "stop_id" row),
        consolidated_row ag (key_of "stop_id" row) row).
Proof.
  intros H. unfold candidate. apply truthy_true_iff in H. rewrite H. reflexivity.
Qed.

Lemma candidate_inv (prefix : bool) (ag : string) (row : RawRow) (p : string * RawRow) :
  candidate prefix ag row = Some p ->
  key_of "stop_id" row <> "" /\
  p = (new_id prefix ag (key_of "stop_id" row),
       consolidated_row ag (key_of "stop_id" row) row).
Proof.
  unfold candidate. destruct (Py.truthy (key_of "stop_id" row)) eqn:E; [|discriminate].
  intros [= <-]. split; [apply truthy_true_iff, E|reflexivity].
Qed.

(** For one agency, distinct stop ids give distinct harmonised ids. *)
Lemma new_id_inj_stop (prefix : bool) (ag s t : string) :
  new_id prefix ag s = new_id prefix ag t -> s = t.
Proof.
  unfold new_id. destruct prefix; [|exact id].
  intros H. apply (inj (String.app ag)) in H. apply (inj (String.app "_")) in H. exact H.
Qed.

(** With prefixing, distinct agencies give distinct harmonised ids to one
    stop id. *)
Lemma new_id_inj_agency (a b s : string) :
  new_id true a s = new_id true b s -> a = b.
Proof. unfold new_id. apply app_inj_l. Qed.

Lemma odict_get_omap_skip {A V} (f : A -> option (string * V)) (k : string) (l : list A) :
  (forall x p, x ∈ l -> f x = Some p -> p.1 <> k) ->
  odict_get k (omap f l) = None.
Proof.
  intros H. apply odict_get_None. unfold odict_keys. intros Hk.
  apply list_elem_of_fmap in Hk as (p & -> & Hp).
  apply list_elem_of_omap in Hp as (x & Hx & Hf). exact (H x p Hx Hf eq_refl).
Qed.

(** The row that is first, in load order, to offer an id is the one the
    consolidated mapping holds for it. *)
Lemma consolidated_first (prefix : bool) (datasets l1 l2 : odict Dataset)
    (A : string) (dsA : Dataset) (p q : list RawRow) (rA : RawRow) :
  datasets = l1 ++ (A, dsA) :: l2 ->
  stops dsA = p ++ rA :: q ->
  key_of "stop_id" rA <> "" ->
  (forall ag ds r, (ag, ds) ∈ l1 -> r ∈ stops ds -> key_of "stop_id" r <> "" ->
     new_id prefix ag (key_of "stop_id" r) <> new_id prefix A (key_of "stop_id" rA)) ->
  (forall r, r ∈ p -> key_of "stop_id" r <> key_of "stop_id" rA) ->
  odict_get (new_id prefix A (key_of "stop_id" rA))
            (harmonize_and_consolidate datasets prefix).1 =
  Some (consolidated_row A (key_of "stop_id" rA) rA).
Proof.
  intros -> Hs HS H1 Hp. rewrite consolidated_get. unfold candidates.
  rewrite bind_app, odict_get_app.
  assert (odict_get (new_id prefix A (key_of "stop_id" rA))
            (l1 ≫= (fun p => omap (candidate prefix p.1) (stops p.2))) = None) as ->.
  { apply odict_get_None. unfold odict_keys. intros Hk.
    apply list_elem_of_fmap in Hk as ([k v] & Hk & Hin). simpl in Hk. subst k.
    apply (candidates_elem prefix l1) in Hin as (ag & ds & r & Hin & Hr & Hc).
    apply candidate_inv in Hc as (Hne & [= Hk _]).
    exact (H1 ag ds r Hin Hr Hne (eq_sym Hk)). }
  rewrite bind_cons, odict_get_app. simpl. rewrite Hs, omap_app, odict_get_app.
  rewrite odict_get_omap_skip.
  - cbn [omap list_omap]. rewrite (candidate_Some _ _ _ HS). simpl.
    rewrite decide_True; reflexivity.
  - intros r [k v] Hr Hc Hk. apply candidate_inv in Hc as (_ & [= -> _]).
    simpl in Hk. apply new_id_inj_stop in Hk. exact (Hp r Hr Hk).
Qed.

Lemma consolidated_row_agency (ag s : string) (row : RawRow) :
  consolidated_row ag s row !! "_agency" = Some ag.
Proof. unfold consolidated_row. apply lookup_insert_eq. Qed.

Lemma consolidated_row_other (ag s k : string) (row : RawRow) :
  k <> "_agency" -> k <> "_orig_stop_id" ->
  consolidated_row ag s row !! k = row !! k.
Proof.
  intros H1 H2. unfold consolidated_row.
  rewrite lookup_insert_ne by congruence. rewrite lookup_insert_ne by congruence.
  reflexivity.
Qed.

(* ===================================================================== *)
(** ** Archive loading *)
(* ===================================================================== *)

Section assoc_last_facts.
Context {V : Type}.
Implicit Types (l : list (string * V)) (k : string) (v : V).

Lemma assoc_last_app k l1 l2 :
  assoc_last k (l1 ++ l2) =
  match assoc_last k l2 with Some v => Some v | None => assoc_last k l1 end.
Proof.
  induction l1 as [|[k' v'] l1 IH]; simpl.
  - destruct (assoc_last k l2); reflexivity.
  - rewrite IH. destruct (assoc_last k l2); reflexivity.
Qed.

Lemma assoc_last_elem k v l : assoc_last k l = Some v -> (k, v) ∈ l.
Proof.
  induction l as [|[k' v'] l IH]; simpl; [discriminate|].
  destruct (assoc_last k l) as [w|].
  - intros [= ->]. right. apply IH. reflexivity.
  - destruct (decide (k' = k)) as [->|]; [|discriminate]. intros [= ->]. left.
Qed.

Lemma assoc_last_None k l : assoc_last k l = None <-> k ∉ l.*1.
Proof.
  induction l as [|[k' v'] l IH]; simpl.
  - split; [intros _; apply not_elem_of_nil|reflexivity].
  - rewrite not_elem_of_cons, <- IH. destruct (assoc_last k l) as [w|].
    + split; [discriminate|]. intros [_ ?]. discriminate.
    + destruct (decide (k' = k)) as [->|Hne].
      * split; [discriminate|]. intros [? _]. congruence.
      * split; [intros _; split; [congruence|reflexivity]|reflexivity].
Qed.

(** When all pairs with key [k] carry the same value, that is the value. *)
Lemma assoc_last_agree k v l :
  k ∈ l.*1 -> (forall w, (k, w) ∈ l -> w = v) -> assoc_last k l = Some v.
Proof.
  intros Hk Hv. destruct (assoc_last k l) as [w|] eqn:E.
  - f_equal. apply Hv, assoc_last_elem, E.
  - apply assoc_last_None in E. contradiction.
Qed.

(** Taking out a pair does not change what other keys hold. *)
Lemma assoc_last_remove k l1 l2 (e : string * V) :
  e.1 <> k -> assoc_last k (l1 ++ e :: l2) = assoc_last k (l1 ++ l2).
Proof.
  intros Hne. rewrite !assoc_last_app. destruct e as [k' v']. simpl in *.
  destruct (assoc_last k l2); [reflexivity|].
  rewrite decide_False by exact Hne. reflexivity.
Qed.

(** Writing pairs into a dictionary in order: the last one wins. *)
Lemma fold_insert_lookup l (m : gmap string V) k :
  fold_left (fun m p => <[p.1 := p.2]> m) l m !! k =
  match assoc_last k l with Some v => Some v | None => m !! k end.
Proof.
  revert m. induction l as [|[k' v'] l IH]; intros m; simpl; [reflexivity|].
  rewrite IH. destruct (assoc_last k l); [reflexivity|].
  destruct (decide (k' = k)) as [->|Hne].
  - apply lookup_insert_eq.
  - apply lookup_insert_ne, Hne.
Qed.

End assoc_last_facts.

Section agree_but_facts.
Context {V : Type}.
Implicit Types (d : odict V) (k : string) (v : V).

Lemma agree_but_refl k d : agree_but k d d.
Proof. apply Forall2_same_length_lookup_2; [reflexivity|]. intros i p p' H1 H2.
  rewrite H1 in H2. injection H2 as ->. split; reflexivity. Qed.

Lemma agree_but_set_same k v v' d : agree_but k (odict_set k v d) (odict_set k v' d).
Proof.
  induction d as [|[k0 v0] d IH]; simpl.
  - constructor; [|constructor]. simpl. split; [reflexivity|congruence].
  - destruct (decide (k0 = k)) as [->|Hne].
    + constructor; [|apply agree_but_refl]. simpl. split; [reflexivity|congruence].
    + constructor; [|exact IH]. split; reflexivity.
Qed.

Lemma agree_but_set k k' v d d' :
  agree_but k d d' -> agree_but k (odict_set k' v d) (odict_set k' v d').
Proof.
  induction 1 as [|[k1 v1] [k2 v2] d d' [Hk Hv] H IH]; simpl.
  - apply agree_but_refl.
  - simpl in Hk. subst k2. destruct (decide (k1 = k')) as [->|Hne].
    + constructor; [|exact H]. split; reflexivity.
    + constructor; [|exact IH]. split; [reflexivity|exact Hv].
Qed.

Lemma agree_but_keys k d d' : agree_but k d d' -> odict_keys d = odict_keys d'.
Proof.
  unfold odict_keys. induction 1 as [|p p' d d' [Hk _] _ IH]; [reflexivity|].
  rewrite !fmap_cons, Hk, IH. reflexivity.
Qed.

Lemma agree_but_eq k d d' : agree_but k d d' -> k ∉ odict_keys d -> d = d'.
Proof.
  unfold odict_keys. induction 1 as [|[k1 v1] [k2 v2] d d' [Hk Hv] H IH]; [reflexivity|].
  rewrite fmap_cons, not_elem_of_cons. simpl in *. intros [Hne Hd]. subst k2.
  rewrite Hv by congruence. rewrite IH by exact Hd. reflexivity.
Qed.

Lemma agree_but_set_eq k v d d' :
  NoDup (odict_keys d) -> agree_but k d d' -> odict_set k v d = odict_set k v d'.
Proof.
  unfold odict_keys. intros Hnd H. revert Hnd.
  induction H as [|[k1 v1] [k2 v2] d d' [Hk Hv] H IH]; [reflexivity|].
  rewrite fmap_cons, NoDup_cons. simpl in *. intros [Hk1 Hnd]. subst k2.
  destruct (decide (k1 = k)) as [->|Hne].
  - f_equal. apply (agree_but_eq k); assumption.
  - rewrite (Hv Hne), IH by exact Hnd. reflexivity.
Qed.

End agree_but_facts.

Section loader_facts.
Variable read_csv_from_bytes : list Byte.byte -> list RawRow.

Local Abbreviation step :=
  (fun datasets '(agency_code, zpath) =>
     odict_set agency_code (extract_one read_csv_from_bytes zpath) datasets).

Lemma extract_app (l1 l2 : list (string * Archive)) :
  extract_relevant_tables read_csv_from_bytes (l1 ++ l2) =
  fold_left step l2 (extract_relevant_tables read_csv_from_bytes l1).
Proof. unfold extract_relevant_tables. apply fold_left_app. Qed.

Lemma extract_fold_nodup (l : list (string * Archive)) (d : odict Dataset) :
  NoDup (odict_keys d) -> NoDup (odict_keys (fold_left step l d)).
Proof.
  intros H. apply (fold_left_inv (fun a => NoDup (odict_keys a))); [exact H|].
  intros a [k z] _ Ha. apply odict_set_nodup, Ha.
Qed.

Lemma extract_nodup (archives : list (string * Archive)) :
  NoDup (odict_keys (extract_relevant_tables read_csv_from_bytes archives)).
Proof. apply extract_fold_nodup, NoDup_nil_2. Qed.

Lemma extract_fold_agree (k : string) (l : list (string * Archive)) (d d' : odict Dataset) :
  agree_but k d d' -> agree_but k (fold_left step l d) (fold_left step l d').
Proof.
  revert d d'. induction l as [|[a z] l IH]; intros d d' H; simpl; [exact H|].
  apply IH, agree_but_set, H.
Qed.

Lemma extract_fold_get (k : string) (l : list (string * Archive)) (d : odict Dataset) :
  odict_get k (fold_left step l d) =
  match assoc_last k l with
  | Some z => Some (extract_one read_csv_from_bytes z)
  | None => odict_get k d
  end.
Proof.
  revert d. induction l as [|[a z] l IH]; intros d; simpl; [reflexivity|].
  rewrite IH. destruct (assoc_last k l); [reflexivity|].
  rewrite odict_get_set. destruct (decide (a = k)); reflexivity.
Qed.

(** An archive followed by one of the same agency code leaves no trace. *)
Lemma extract_shadowed (l1 l2 l3 : list (string * Archive)) (ag : string)
    (z1 z1' z2 : Archive) :
  extract_relevant_tables read_csv_from_bytes (l1 ++ (ag, z1) :: l2 ++ (ag, z2) :: l3) =
  extract_relevant_tables read_csv_from_bytes (l1 ++ (ag, z1') :: l2 ++ (ag, z2) :: l3).
Proof.
  rewrite !extract_app. cbn [fold_left]. rewrite !fold_left_app. cbn [fold_left].
  f_equal. apply agree_but_set_eq.
  - apply extract_fold_nodup, odict_set_nodup, extract_nodup.
  - apply extract_fold_agree, agree_but_set_same.
Qed.

Lemma read_csv_no_match (z : Archive) (m : string) :
  Forall (fun n => Py.endswith (Py.lower n) (Py.lower m) = false) (zmembers z).*1 ->
  read_csv_from_zip read_csv_from_bytes z m = None.
Proof.
  intros H. unfold read_csv_from_zip. destruct (zexists z); [|reflexivity]. simpl.
  induction H as [|n l Hn _ IH]; [reflexivity|].
  rewrite filter_cons_False; [exact IH|]. rewrite Hn. exact id.
Qed.

End loader_facts.

(* ===================================================================== *)
(** ** Feature assembly and the pipeline *)
(* ===================================================================== *)

Lemma append_route_fold (route_info : gmap string RouteMeta) (l acc : list string) :
  fold_left (append_route route_info) l acc = acc ++ (display_route route_info <$> l).
Proof.
  revert acc. induction l as [|rid l IH]; intros acc; simpl.
  - rewrite app_nil_r. reflexivity.
  - rewrite IH. unfold append_route, display_route.
    destruct (route_info !! rid) as [meta|]; [destruct (Py.truthy _)|];
      rewrite <- app_assoc; reflexivity.
Qed.

Lemma make_feature_routes (stop_routes : gmap string (list string))
    (route_info : gmap string RouteMeta) (sid : string) (s : CleanStop) :
  routes_serving (properties (make_feature stop_routes route_info sid s)) =
  display_route route_info <$> default [] (stop_routes !! sid).
Proof. simpl. apply append_route_fold. Qed.

Lemma create_geojson_features (now : string) (clean_stops : odict CleanStop)
    (stop_routes : gmap string (list string)) (route_info : gmap string RouteMeta) :
  features (create_geojson now clean_stops stop_routes route_info) =
  (fun p => make_feature stop_routes route_info p.1 p.2) <$> clean_stops.
Proof.
  simpl.
  enough (H : forall acc,
             fold_left (fun fs '(sid, s) => fs ++ [make_feature stop_routes route_info sid s])
                       clean_stops acc =
             acc ++ ((fun p => make_feature stop_routes route_info p.1 p.2) <$> clean_stops))
    by apply (H []).
  induction clean_stops as [|[sid s] l IH]; intros acc; simpl.
  - rewrite app_nil_r. reflexivity.
  - rewrite IH, <- app_assoc. reflexivity.
Qed.

Lemma create_geojson_elem (now : string) (clean_stops : odict CleanStop)
    (stop_routes : gmap string (list string)) (route_info : gmap string RouteMeta)
    (f : Feature) :
  f ∈ features (create_geojson now clean_stops stop_routes route_info) <->
  exists sid s, (sid, s) ∈ clean_stops /\ f = make_feature stop_routes route_info sid s.
Proof.
  rewrite create_geojson_features, list_elem_of_fmap. split.
  - intros ([sid s] & -> & Hin). exists sid, s. split; [exact Hin|reflexivity].
  - intros (sid & s & Hin & ->). exists (sid, s). split; [reflexivity|exact Hin].
Qed.

(** [process] without the destructuring of the intermediate pairs. *)
Lemma process_unfold (set_order : gset string -> list string) (now : string)
    (prefix skip_enrich : bool) (datasets : odict Dataset) :
  process set_order now prefix skip_enrich datasets =
  create_geojson now
    (filter_and_clean_stops (harmonize_and_consolidate datasets prefix).1)
    (if negb skip_enrich
     then build_stop_to_routes_in set_order datasets
            (build_route_mappings datasets prefix).2 prefix
     else ∅)
    (build_route_mappings datasets prefix).1.
Proof.
  unfold process.
  destruct (harmonize_and_consolidate datasets prefix) as [c a].
  destruct (build_route_mappings datasets prefix) as [ri t2r]. reflexivity.
Qed.

Lemma lat_field_consolidated (ag s : string) (row : RawRow) :
  lat_field (consolidated_row ag s row) = lat_field row.
Proof. unfold lat_field. rewrite !consolidated_row_other by discriminate. reflexivity. Qed.

Lemma lon_field_consolidated (ag s : string) (row : RawRow) :
  lon_field (consolidated_row ag s row) = lon_field row.
Proof. unfold lon_field. rewrite !consolidated_row_other by discriminate. reflexivity. Qed.

(* ===================================================================== *)
(** ** The route index and the join *)
(* ===================================================================== *)

Lemma add_trip_entry (pfx : string) (m : gmap string string) (t : RawRow) :
  add_trip pfx m t =
  match trip_entry pfx t with Some p => <[p.1 := p.2]> m | None => m end.
Proof.
  unfold add_trip, trip_entry.
  destruct (Py.truthy (key_of "trip_id" t)); simpl; [|reflexivity].
  destruct (Py.truthy (key_of "route_id" t)); reflexivity.
Qed.

Lemma add_route_entry (pfx ag : string) (m : gmap string RouteMeta) (r : RawRow) :
  add_route pfx ag m r =
  match route_entry pfx ag r with Some p => <[p.1 := p.2]> m | None => m end.
Proof.
  unfold add_route, route_entry.
  destruct (Py.truthy (key_of "route_id" r)); reflexivity.
Qed.

(** A loop that writes at most one pair per row writes the pairs of the
    rows in order. *)
Lemma fold_omap_insert {A V} (f : A -> option (string * V))
    (g : gmap string V -> A -> gmap string V) :
  (forall m x, g m x = match f x with Some p => <[p.1 := p.2]> m | None => m end) ->
  forall l m, fold_left g l m = fold_left (fun m p => <[p.1 := p.2]> m) (omap f l) m.
Proof.
  intros Hg l. induction l as [|x l IH]; intros m; [reflexivity|].
  cbn [fold_left omap list_omap]. rewrite IH, Hg. destruct (f x); reflexivity.
Qed.

Lemma build_route_mappings_fold (prefix : bool) (datasets : odict Dataset)
    (acc : gmap string RouteMeta * gmap string string) :
  fold_left (fun acc '(ag, ds) =>
               let pfx := ag_prefix prefix ag in
               (fold_left (add_route pfx ag) (routes ds) acc.1,
                fold_left (add_trip pfx) (trips ds) acc.2))
            datasets acc =
  (fold_left (fun m p => <[p.1 := p.2]> m) (route_entries prefix datasets) acc.1,
   fold_left (fun m p => <[p.1 := p.2]> m) (trip_entries prefix datasets) acc.2).
Proof.
  unfold route_entries, trip_entries. revert acc.
  induction datasets as [|[ag ds] datasets IH]; intros [ri t2r]; [reflexivity|].
  cbn [fold_left]. rewrite IH. rewrite !bind_cons, !fold_left_app. cbn [fst snd].
  rewrite (fold_omap_insert _ _ (add_route_entry (ag_prefix prefix ag) ag)).
  rewrite (fold_omap_insert _ _ (add_trip_entry (ag_prefix prefix ag))).
  reflexivity.
Qed.

(** [route_info] holds, for each harmonised route id, what the last
    routes row with that id wrote. *)
Lemma route_info_lookup (datasets : odict Dataset) (prefix : bool) (k : string) :
  (build_route_mappings datasets prefix).1 !! k =
  assoc_last k (route_entries prefix datasets).
Proof.
  unfold build_route_mappings. rewrite build_route_mappings_fold. cbn [fst].
  rewrite fold_insert_lookup, lookup_empty. destruct (assoc_last _ _); reflexivity.
Qed.

(** [trip_to_route] holds, for each harmonised trip id, what the last
    trips row with that id and a route wrote. *)
Lemma trip_to_route_lookup (datasets : odict Dataset) (prefix : bool) (k : string) :
  (build_route_mappings datasets prefix).2 !! k =
  assoc_last k (trip_entries prefix datasets).
Proof.
  unfold build_route_mappings. rewrite build_route_mappings_fold. cbn [snd].
  rewrite fold_insert_lookup, lookup_empty. destruct (assoc_last _ _); reflexivity.
Qed.

Lemma add_stop_time_link (prefix : bool) (ag : string)
    (t2r : gmap string string) (sr : gmap string (gset string)) (st : RawRow) :
  add_stop_time prefix (ag_prefix prefix ag) t2r sr st =
  match stop_time_link (ag_prefix prefix ag) st with
  | Some p => link_step t2r sr p
  | None => sr
  end.
Proof.
  unfold add_stop_time, stop_time_link, link_step.
  destruct (Py.truthy (key_of "stop_id" st)); simpl; [|reflexivity].
  destruct (Py.truthy (key_of "trip_id" st)); simpl; [|reflexivity].
  destruct prefix; reflexivity.
Qed.

Lemma collect_links (datasets : odict Dataset) (t2r : gmap string string) (prefix : bool) :
  collect_stop_routes datasets t2r prefix =
  fold_left (link_step t2r) (stop_time_links prefix datasets) ∅.
Proof.
  unfold collect_stop_routes, stop_time_links.
  generalize (∅ : gmap string (gset string)).
  induction datasets as [|[ag ds] datasets IH]; intros acc; [reflexivity|].
  cbn [fold_left]. rewrite IH, bind_cons, fold_left_app. f_equal. cbn [fst snd].
  generalize (stop_times ds). clear. intros l. revert acc.
  induction l as [|st l IH]; intros acc; [reflexivity|].
  cbn [fold_left omap list_omap]. rewrite IH, add_stop_time_link.
  destruct (stop_time_link _ st); reflexivity.
Qed.

Lemma link_step_elem (t2r : gmap string string) (sr : gmap string (gset string))
    (p : string * string) (sid rid : string) :
  rid ∈ default ∅ (link_step t2r sr p !! sid) <->
  rid ∈ default ∅ (sr !! sid) \/
  (p.1 = sid /\ t2r !! p.2 = Some rid /\ rid <> "").
Proof.
  unfold link_step. destruct p as [s0 t0]. simpl.
  destruct (t2r !! t0) as [r0|] eqn:E; [|naive_solver].
  destruct (Py.truthy r0) eqn:Er.
  - apply truthy_true_iff in Er. destruct (decide (s0 = sid)) as [->|Hne].
    + rewrite lookup_insert_eq. simpl. rewrite elem_of_union, elem_of_singleton.
      naive_solver.
    + rewrite lookup_insert_ne by exact Hne. naive_solver.
  - apply truthy_false_iff in Er. naive_solver.
Qed.

Lemma link_fold_elem (t2r : gmap string string) (l : list (string * string))
    (sr : gmap string (gset string)) (sid rid : string) :
  rid ∈ default ∅ (fold_left (link_step t2r) l sr !! sid) <->
  rid ∈ default ∅ (sr !! sid) \/
  exists tid, (sid, tid) ∈ l /\ t2r !! tid = Some rid /\ rid <> "".
Proof.
  revert sr. induction l as [|[s0 t0] l IH]; intros sr; simpl.
  - split; [tauto|]. intros [H|(tid & H & _)]; [exact H|inversion H].
  - rewrite IH, link_step_elem. simpl. split.
    + intros [[H|(-> & H1 & H2)]|(tid & Hin & H1 & H2)].
      * left. exact H.
      * right. exists t0. split; [left|auto].
      * right. exists tid. split; [right; exact Hin|auto].
    + intros [H|(tid & Hin & H1 & H2)]; [left; left; exact H|].
      apply elem_of_cons in Hin as [[= -> ->]|Hin].
      * left. right. auto.
      * right. exists tid. auto.
Qed.

(** The ids that [sorted] returns are those it is given. *)
Lemma sorted_elem (l : list string) (x : string) : x ∈ sorted l <-> x ∈ l.
Proof. unfold sorted. rewrite merge_sort_Permutation. reflexivity. Qed.

(** The sorted list does not depend on the order in which a set is read. *)
Lemma sorted_permutation (l1 l2 : list string) : l1 ≡ₚ l2 -> sorted l1 = sorted l2.
Proof.
  intros H. unfold sorted. apply (Sorted_unique String.le).
  - apply Sorted_merge_sort; apply _.
  - apply Sorted_merge_sort; apply _.
  - rewrite !merge_sort_Permutation. exact H.
Qed.

Section join_facts.
Variable set_order : gset string -> list string.
Hypothesis set_order_perm : forall s, set_order s ≡ₚ elements s.

(** The join: a stop is served by the routes that the trips of its
    stop_times rows resolve to. *)
Lemma stop_routes_elem (datasets : odict Dataset) (t2r : gmap string string)
    (prefix : bool) (sid rid : string) :
  rid ∈ default [] (build_stop_to_routes_in set_order datasets t2r prefix !! sid) <->
  exists tid,
    (sid, tid) ∈ stop_time_links prefix datasets /\ t2r !! tid = Some rid /\ rid <> "".
Proof.
  unfold build_stop_to_routes_in. rewrite lookup_fmap.
  pose proof (link_fold_elem t2r (stop_time_links prefix datasets) ∅ sid rid) as H.
  rewrite <- collect_links in H. rewrite lookup_empty in H. simpl in H.
  rewrite elem_of_empty in H.
  destruct (collect_stop_routes datasets t2r prefix !! sid) as [v|]; simpl in *.
  - rewrite sorted_elem, set_order_perm, elem_of_elements, H. tauto.
  - rewrite elem_of_nil. rewrite elem_of_empty in H. tauto.
Qed.

Lemma routes_serving_elem (datasets : odict Dataset) (t2r : gmap string string)
    (route_info : gmap string RouteMeta) (prefix : bool) (sid : string)
    (s : CleanStop) (x : string) :
  x ∈ routes_serving (properties
        (make_feature (build_stop_to_routes_in set_order datasets t2r prefix)
                      route_info sid s)) <->
  exists tid rid,
    (sid, tid) ∈ stop_time_links prefix datasets /\ t2r !! tid = Some rid /\
    rid <> "" /\ display_route route_info rid = x.
Proof.
  rewrite make_feature_routes, list_elem_of_fmap. split.
  - intros (rid & -> & H). apply stop_routes_elem in H as (tid & H1 & H2 & H3).
    exists tid, rid. auto.
  - intros (tid & rid & H1 & H2 & H3 & <-). exists rid. split; [reflexivity|].
    apply stop_routes_elem. exists tid. auto.
Qed.

End join_facts.

Lemma new_id_prefix (prefix : bool) (ag s : string) :
  new_id prefix ag s = ag_prefix prefix ag +:+ s.
Proof.
  unfold new_id, ag_prefix. destruct prefix; [|reflexivity].
  rewrite app_assoc_str. reflexivity.
Qed.

Lemma app_nonempty_r (a b : string) : b <> "" -> a +:+ b <> "".
Proof.
  intros Hb H. apply (f_equal String.length) in H. rewrite app_length in H.
  destruct b; [congruence|]. simpl in H. lia.
Qed.

Lemma trip_entries_elem (prefix : bool) (datasets : odict Dataset) (e : string * string) :
  e ∈ trip_entries prefix datasets <->
  exists ag ds t,
    (ag, ds) ∈ datasets /\ t ∈ trips ds /\ trip_entry (ag_prefix prefix ag) t = Some e.
Proof.
  unfold trip_entries. rewrite list_elem_of_bind. split.
  - intros ([ag ds] & H & Hin). apply list_elem_of_omap in H as (t & Ht & He).
    exists ag, ds, t. auto.
  - intros (ag & ds & t & Hin & Ht & He). exists (ag, ds). split; [|exact Hin].
    apply list_elem_of_omap. exists t. auto.
Qed.

Lemma route_entries_elem (prefix : bool) (datasets : odict Dataset)
    (e : string * RouteMeta) :
  e ∈ route_entries prefix datasets <->
  exists ag ds r,
    (ag, ds) ∈ datasets /\ r ∈ routes ds /\ route_entry (ag_prefix prefix ag) ag r = Some e.
Proof.
  unfold route_entries. rewrite list_elem_of_bind. split.
  - intros ([ag ds] & H & Hin). apply list_elem_of_omap in H as (r & Hr & He).
    exists ag, ds, r. auto.
  - intros (ag & ds & r & Hin & Hr & He). exists (ag, ds). split; [|exact Hin].
    apply list_elem_of_omap. exists r. auto.
Qed.

Lemma stop_time_links_elem (prefix : bool) (datasets : odict Dataset)
    (e : string * string) :
  e ∈ stop_time_links prefix datasets <->
  exists ag ds st,
    (ag, ds) ∈ datasets /\ st ∈ stop_times ds /\
    stop_time_link (ag_prefix prefix ag) st = Some e.
Proof.
  unfold stop_time_links. rewrite list_elem_of_bind. split.
  - intros ([ag ds] & H & Hin). apply list_elem_of_omap in H as (st & Hs & He).
    exists ag, ds, st. auto.
  - intros (ag & ds & st & Hin & Hs & He). exists (ag, ds). split; [|exact Hin].
    apply list_elem_of_omap. exists st. auto.
Qed.

Lemma trip_entry_Some (pfx : string) (t : RawRow) :
  key_of "trip_id" t <> "" -> key_of "route_id" t <> "" ->
  trip_entry pfx t = Some (pfx +:+ key_of "trip_id" t, pfx +:+ key_of "route_id" t).
Proof.
  intros H1 H2. unfold trip_entry.
  apply truthy_true_iff in H1. apply truthy_true_iff in H2. rewrite H1, H2. reflexivity.
Qed.

(** [trip_to_route] never holds an empty route id. *)
Lemma trip_entry_value (pfx : string) (t : RawRow) (e : string * string) :
  trip_entry pfx t = Some e -> e.2 <> "".
Proof.
  unfold trip_entry. destruct (Py.truthy (key_of "trip_id" t)); [|discriminate].
  destruct (Py.truthy (key_of "route_id" t)) eqn:E; [|discriminate].
  intros [= <-]. simpl. apply app_nonempty_r, truthy_true_iff, E.
Qed.

Lemma trip_to_route_value (datasets : odict Dataset) (prefix : bool) (k v : string) :
  (build_route_mappings datasets prefix).2 !! k = Some v -> v <> "".
Proof.
  rewrite trip_to_route_lookup. intros H. apply assoc_last_elem in H.
  apply trip_entries_elem in H as (ag & ds & t & _ & _ & He).
  apply trip_entry_value in He. exact He.
Qed.

Lemma route_entry_Some (pfx ag : string) (r : RawRow) :
  key_of "route_id" r <> "" ->
  exists m, route_entry pfx ag r = Some (pfx +:+ key_of "route_id" r, m).
Proof.
  intros H. unfold route_entry. apply truthy_true_iff in H. rewrite H. eauto.
Qed.

Lemma stop_time_link_Some (pfx : string) (st : RawRow) :
  key_of "stop_id" st <> "" -> key_of "trip_id" st <> "" ->
  stop_time_link pfx st = Some (pfx +:+ key_of "stop_id" st, pfx +:+ key_of "trip_id" st).
Proof.
  intros H1 H2. unfold stop_time_link.
  apply truthy_true_iff in H1. apply truthy_true_iff in H2. rewrite H1, H2. reflexivity.
Qed.

(** Replacing the trips table of one agency touches neither the stops, nor
    the routes, nor the stop_times. *)
Section with_trips_facts.
Variables (prefix : bool) (l1 l2 : odict Dataset) (ag : string) (ds : Dataset).
Variable ts : list RawRow.

Lemma with_trips_candidates :
  candidates prefix (l1 ++ (ag, with_trips ds ts) :: l2) =
  candidates prefix (l1 ++ (ag, ds) :: l2).
Proof. unfold candidates. rewrite !bind_app, !bind_cons. reflexivity. Qed.

Lemma with_trips_route_entries :
  route_entries prefix (l1 ++ (ag, with_trips ds ts) :: l2) =
  route_entries prefix (l1 ++ (ag, ds) :: l2).
Proof. unfold route_entries. rewrite !bind_app, !bind_cons. reflexivity. Qed.

Lemma with_trips_stop_time_links :
  stop_time_links prefix (l1 ++ (ag, with_trips ds ts) :: l2) =
  stop_time_links prefix (l1 ++ (ag, ds) :: l2).
Proof. unfold stop_time_links. rewrite !bind_app, !bind_cons. reflexivity. Qed.

Lemma with_trips_consolidated :
  (harmonize_and_consolidate (l1 ++ (ag, with_trips ds ts) :: l2) prefix).1 =
  (harmonize_and_consolidate (l1 ++ (ag, ds) :: l2) prefix).1.
Proof. rewrite !harmonize_fst, with_trips_candidates. reflexivity. Qed.

Lemma with_trips_route_info :
  (build_route_mappings (l1 ++ (ag, with_trips ds ts) :: l2) prefix).1 =
  (build_route_mappings (l1 ++ (ag, ds) :: l2) prefix).1.
Proof.
  unfold build_route_mappings. rewrite !build_route_mappings_fold. cbn [fst].
  rewrite with_trips_route_entries. reflexivity.
Qed.

Lemma with_trips_trip_entries :
  trip_entries prefix (l1 ++ (ag, with_trips ds ts) :: l2) =
  trip_entries prefix l1 ++ omap (trip_entry (ag_prefix prefix ag)) ts
    ++ trip_entries prefix l2.
Proof. unfold trip_entries. rewrite !bind_app, !bind_cons. reflexivity. Qed.

Lemma trip_entries_split :
  trip_entries prefix (l1 ++ (ag, ds) :: l2) =
  trip_entries prefix l1 ++ omap (trip_entry (ag_prefix prefix ag)) (trips ds)
    ++ trip_entries prefix l2.
Proof. unfold trip_entries. rewrite !bind_app, !bind_cons. reflexivity. Qed.

End with_trips_facts.

(** Without a resolvable trip, or without stop_times, the join is empty. *)
Lemma collect_no_trips (datasets : odict Dataset) (t2r : gmap string string)
    (prefix : bool) :
  (forall k, t2r !! k = None) -> collect_stop_routes datasets t2r prefix = ∅.
Proof.
  intros H. rewrite collect_links. generalize (∅ : gmap string (gset string)).
  induction (stop_time_links prefix datasets) as [|p l IH]; intros acc; [reflexivity|].
  simpl. unfold link_step at 2. rewrite H. apply IH.
Qed.

Lemma collect_no_links (datasets : odict Dataset) (t2r : gmap string string)
    (prefix : bool) :
  stop_time_links prefix datasets = [] -> collect_stop_routes datasets t2r prefix = ∅.
Proof. intros H. rewrite collect_links, H. reflexivity. Qed.

Lemma no_enrichment (set_order : gset string -> list string) (now : string)
    (prefix skip_enrich : bool) (ag : string) (ds : Dataset) :
  trips ds = [] \/ stop_times ds = [] ->
  Forall (fun f => routes_serving (properties f) = [])
         (features (process set_order now prefix skip_enrich [(ag, ds)])).
Proof.
  intros H. rewrite process_unfold. apply Forall_forall. intros f Hf.
  apply create_geojson_elem in Hf as (sid & s & _ & ->).
  rewrite make_feature_routes.
  assert (E : (if negb skip_enrich
               then build_stop_to_routes_in set_order [(ag, ds)]
                      (build_route_mappings [(ag, ds)] prefix).2 prefix
               else ∅) = ∅).
  { destruct skip_enrich; [reflexivity|]. simpl negb. cbv iota.
    unfold build_stop_to_routes_in.
    enough (collect_stop_routes [(ag, ds)] (build_route_mappings [(ag, ds)] prefix).2 prefix
            = ∅) as -> by apply fmap_empty.
    destruct H as [H|H].
    - apply collect_no_trips. intros k. rewrite trip_to_route_lookup.
      unfold trip_entries. rewrite bind_singleton. simpl. rewrite H. reflexivity.
    - apply collect_no_links. unfold stop_time_links.
      rewrite bind_singleton. simpl. rewrite H. reflexivity. }
  rewrite E, lookup_empty. reflexivity.
Qed.

Lemma build_stop_to_routes_order (ord1 ord2 : gset string -> list string)
    (datasets : odict Dataset) (t2r : gmap string string) (prefix : bool) :
  (forall s, ord1 s ≡ₚ elements s) -> (forall s, ord2 s ≡ₚ elements s) ->
  build_stop_to_routes_in ord1 datasets t2r prefix =
  build_stop_to_routes_in ord2 datasets t2r prefix.
Proof.
  intros H1 H2. unfold build_stop_to_routes_in. apply map_fmap_ext.
  intros k v _. apply sorted_permutation. rewrite H1, H2. reflexivity.
Qed.

(* ===================================================================== *)
(** ** Properties of the stop filter *)
(* ===================================================================== *)

(** C2 (defect of the code): the claim has every row with a coordinate
    that is not finite dropped, and the module promises a filter that
    keeps only stops with a valid latitude and longitude, computing
    [valid_coord] to that end.  Yet a stop row whose latitude is the
    token [nan] passes harmonisation and the filter: [float] accepts the
    token, its value is not finite, the row is kept and its feature is
    emitted with a NaN coordinate.  The same happens for an infinity token
    and for a literal beyond the binary64 range. *)
Lemma C2_nan_row_is_kept :
  filter_and_clean_stops
    (harmonize_and_consolidate [("A", stops_only [stop_nan])] true).1 =
    [("A_1", {| cs_stop_id := "A_1"; cs_orig_stop_id := Some "1";
                cs_agency := Some "A";
                cs_stop_name := ""; cs_stop_code := ""; cs_location_type := 0;
                cs_parent_station := "";
                cs_stop_lat := Py.Fnan;
                cs_stop_lon := Py.Fdec false 330 (-1) |})] /\
  Py.float (lat_field stop_nan) = Some Py.Fnan /\
  Py.is_finite Py.Fnan = false /\
  (fun f => coordinates (geometry f))
    <$> features (process elements a_date true false [("A", stops_only [stop_nan])]) =
    [[Py.Fdec false 330 (-1); Py.Fnan]] /\
  (fun f => coordinates (geometry f))
    <$> features (process elements a_date true false [("A", stops_only [stop_inf])]) =
    [[Py.Fdec false 330 (-1); Py.Finf true]] /\
  (fun f => coordinates (geometry f))
    <$> features (process elements a_date true false [("A", stops_only [stop_huge])]) =
    [[Py.Fdec false 330 (-1); Py.Finf false]].
Proof. repeat split; vm_compute; reflexivity. Qed.

(** C4: a missing or unreadable [location_type] counts as 0 and does not
    reject a row with valid coordinates; every CleanStop record has
    location type 0 or 1; a row whose [location_type] reads as another
    integer is excluded, whatever its coordinates. *)
Theorem C4_location_type_default_and_range
    (consolidated : odict RawRow) (sid : string) (row : RawRow) :
  NoDup (odict_keys consolidated) ->
  (sid, row) ∈ consolidated ->
  let clean := filter_and_clean_stops consolidated in
  let unreadable :=
    row !! "location_type" = None \/
    exists v, row !! "location_type" = Some v /\ Py.int v = None in
  (unreadable ->
     is_Some (Py.float (lat_field row)) -> is_Some (Py.float (lon_field row)) ->
     exists c, odict_get sid clean = Some c /\ cs_location_type c = 0) /\
  (forall sid' c, (sid', c) ∈ clean ->
     cs_location_type c = 0 \/ cs_location_type c = 1) /\
  (forall v i, row !! "location_type" = Some v -> Py.int v = Some i ->
     i <> 0 -> i <> 1 -> odict_get sid clean = None).
Proof.
  intros Hnd Hin clean unreadable. unfold clean.
  rewrite (filter_get _ _ _ Hnd Hin). split; [|split].
  - intros Hu Ha Hb.
    assert (Ht : location_type_of row = 0).
    { destruct Hu as [Hu|(v & Hv & Hi)].
      - apply location_type_missing, Hu.
      - rewrite (location_type_present _ _ Hv), Hi. reflexivity. }
    destruct (proj2 (clean_row_is_Some sid row)) as [c Hc]; [tauto|].
    exists c. split; [exact Hc|].
    apply clean_row_Some in Hc as (_ & _ & -> & _). exact Ht.
  - intros sid' c Hc. apply filter_elem in Hc as (row' & _ & Hc).
    apply clean_row_Some in Hc as (_ & _ & -> & Ht & _). exact Ht.
  - intros v i Hv Hi H0 H1. apply eq_None_not_Some. rewrite clean_row_is_Some.
    rewrite (location_type_present _ _ Hv), Hi. intros (_ & _ & [?|?]); congruence.
Qed.

(** An unreadable location type with aliased coordinates is kept as type
    0; an entrance is dropped. *)
Lemma C4_witness :
  (exists c, odict_get "A_1" (filter_and_clean_stops [("A_1", stop_alias)]) = Some c /\
             cs_location_type c = 0) /\
  odict_get "A_1" (filter_and_clean_stops [("A_1", stop_entrance)]) = None.
Proof.
  split.
  - assert (Hnd : NoDup (odict_keys [("A_1", stop_alias)])) by apply NoDup_singleton.
    assert (Hin : ("A_1", stop_alias) ∈ [("A_1", stop_alias)]) by left.
    destruct (C4_location_type_default_and_range _ _ _ Hnd Hin) as (H & _ & _).
    apply H.
    + right. exists "x". split; vm_compute; reflexivity.
    + vm_compute. eauto.
    + vm_compute. eauto.
  - assert (Hnd : NoDup (odict_keys [("A_1", stop_entrance)])) by apply NoDup_singleton.
    assert (Hin : ("A_1", stop_entrance) ∈ [("A_1", stop_entrance)]) by left.
    destruct (C4_location_type_default_and_range _ _ _ Hnd Hin) as (_ & _ & H).
    apply (H "2" 2); [vm_compute; reflexivity|vm_compute; reflexivity|lia|lia].
Defined.

(* ===================================================================== *)
(** ** Properties of the identifier harmonisation *)
(* ===================================================================== *)

(** C3, as stated, fails: the raw [stop_id] is stripped before use.  Two
    agencies sharing the non-empty raw id of one blank keep no row at all,
    and sharing the raw id [" 7"] they get the ids [A_7] and [B_7], not the
    concatenations with the raw id. *)
Lemma C3_raw_stop_id_is_stripped :
  stop_blank !! "stop_id" = Some " " /\
  (harmonize_and_consolidate blank_agencies true).1 = [] /\
  (harmonize_and_consolidate blank_agencies false).1 = [] /\
  stop_padded !! "stop_id" = Some " 7" /\
  odict_keys (harmonize_and_consolidate padded_agencies true).1 = ["A_7"; "B_7"] /\
  odict_get ("A" +:+ "_" +:+ " 7") (harmonize_and_consolidate padded_agencies true).1 = None.
Proof. repeat split; vm_compute; reflexivity. Qed.

(** C3 (amended): let S be the [stop_id] of a stop row of agency A and of a
    stop row of agency B after stripping, S not empty, A and B distinct.
    With prefixing the harmonised ids are A_S and B_S, they differ, and
    both are keys of the consolidated mapping; a key holds the first row,
    in load order, that maps to it.  Without prefixing both rows get the
    id S, the mapping has a single entry for S, and when A is the first
    loaded agency with such a row that entry is the row of A, the row of B
    being absent. *)
Theorem C3_harmonized_ids_across_agencies
    (datasets : odict Dataset) (A B S : string) (dsA dsB : Dataset)
    (rA rB : RawRow) :
  A <> B ->
  (A, dsA) ∈ datasets -> (B, dsB) ∈ datasets ->
  rA ∈ stops dsA -> rB ∈ stops dsB ->
  key_of "stop_id" rA = S -> key_of "stop_id" rB = S -> S <> "" ->
  let pre := (harmonize_and_consolidate datasets true).1 in
  let unp := (harmonize_and_consolidate datasets false).1 in
  (new_id true A S = A +:+ "_" +:+ S /\
   new_id true B S = B +:+ "_" +:+ S /\
   new_id true A S <> new_id true B S /\
   is_Some (odict_get (new_id true A S) pre) /\
   is_Some (odict_get (new_id true B S) pre) /\
   forall l1 l2 p q,
     datasets = l1 ++ (A, dsA) :: l2 -> stops dsA = p ++ rA :: q ->
     (forall ag ds r, (ag, ds) ∈ l1 -> r ∈ stops ds -> key_of "stop_id" r <> "" ->
        new_id true ag (key_of "stop_id" r) <> new_id true A S) ->
     (forall r, r ∈ p -> key_of "stop_id" r <> S) ->
     odict_get (new_id true A S) pre = Some (consolidated_row A S rA)) /\
  (new_id false A S = S /\
   new_id false B S = S /\
   (exists v, odict_get S unp = Some v /\ forall w, (S, w) ∈ unp -> w = v) /\
   forall l1 l2 p q,
     datasets = l1 ++ (A, dsA) :: l2 -> stops dsA = p ++ rA :: q ->
     (forall ag ds r, (ag, ds) ∈ l1 -> r ∈ stops ds -> key_of "stop_id" r <> S) ->
     (forall r, r ∈ p -> key_of "stop_id" r <> S) ->
     odict_get S unp = Some (consolidated_row A S rA) /\
     (S, consolidated_row B S rB) ∉ unp).
Proof.
  intros HAB HA HB HrA HrB HkA HkB HS pre unp.
  assert (Hkey : forall prefix ag ds r,
             (ag, ds) ∈ datasets -> r ∈ stops ds -> key_of "stop_id" r = S ->
             is_Some (odict_get (new_id prefix ag S)
                                (harmonize_and_consolidate datasets prefix).1)).
  { intros prefix ag ds r Hd Hr Hk. rewrite consolidated_get.
    apply odict_get_is_Some. unfold odict_keys.
    apply list_elem_of_fmap.
    exists (new_id prefix ag S, consolidated_row ag S r). split; [reflexivity|].
    apply candidates_elem. exists ag, ds, r. split; [exact Hd|]. split; [exact Hr|].
    rewrite candidate_Some by congruence. rewrite Hk. reflexivity. }
  assert (Huniq : forall v, odict_get S unp = Some v -> forall w, (S, w) ∈ unp -> w = v).
  { intros v Hv w Hw.
    pose proof (odict_get_nodup _ _ _ (consolidated_nodup datasets false) Hw) as Hw'.
    unfold unp in Hv. congruence. }
  split.
  - split; [reflexivity|]. split; [reflexivity|].
    split; [intros H; apply HAB, (new_id_inj_agency _ _ _ H)|].
    split; [exact (Hkey true A dsA rA HA HrA HkA)|].
    split; [exact (Hkey true B dsB rB HB HrB HkB)|].
    intros l1 l2 p q Hd Hs H1 Hp. unfold pre. subst S.
    apply (consolidated_first true datasets l1 l2 A dsA p q rA); assumption.
  - split; [reflexivity|]. split; [reflexivity|]. split.
    + destruct (Hkey false A dsA rA HA HrA HkA) as [v Hv].
      exists v. split; [exact Hv|]. apply Huniq. exact Hv.
    + intros l1 l2 p q Hd Hs H1 Hp.
      assert (Hget : odict_get S unp = Some (consolidated_row A S rA)).
      { unfold unp. subst S.
        apply (consolidated_first false datasets l1 l2 A dsA p q rA); try assumption.
        intros ag ds r Hin Hr _. exact (H1 ag ds r Hin Hr). }
      split; [exact Hget|]. intros Hin.
      apply (Huniq _ Hget) in Hin. apply (f_equal (fun m : RawRow => m !! "_agency")) in Hin.
      rewrite !consolidated_row_agency in Hin. congruence.
Qed.

(** Two agencies with the stop id 1. *)
Lemma C3_witness :
  is_Some (odict_get "A_1" (harmonize_and_consolidate two_agencies true).1) /\
  is_Some (odict_get "B_1" (harmonize_and_consolidate two_agencies true).1) /\
  odict_get "1" (harmonize_and_consolidate two_agencies false).1 =
    Some (consolidated_row "A" "1" stop_ok) /\
  ("1", consolidated_row "B" "1" stop_ok) ∉ (harmonize_and_consolidate two_agencies false).1.
Proof.
  assert (HAB : "A" <> "B") by discriminate.
  assert (HA : ("A", stops_only [stop_ok]) ∈ two_agencies) by left.
  assert (HB : ("B", stops_only [stop_ok]) ∈ two_agencies) by (right; left).
  assert (Hr : stop_ok ∈ stops (stops_only [stop_ok])) by left.
  assert (Hk : key_of "stop_id" stop_ok = "1") by (vm_compute; reflexivity).
  assert (HS : "1" <> "") by discriminate.
  destruct (C3_harmonized_ids_across_agencies
              two_agencies "A" "B" "1" _ _ stop_ok stop_ok HAB HA HB Hr Hr Hk Hk HS)
    as ((_ & _ & _ & H1 & H2 & _) & (_ & _ & _ & H3)).
  split; [exact H1|]. split; [exact H2|].
  apply (H3 [] [("B", stops_only [stop_ok])] [] []).
  - reflexivity.
  - reflexivity.
  - intros ag ds r Hin. inversion Hin.
  - intros r Hin. inversion Hin.
Defined.

(** C9: prefixed ids are the plain concatenation of agency code, underscore
    and stop id, so distinct pairs can meet: agency A with stop B_C and
    agency A_B with stop C both get A_B_C.  Both agency codes can be
    derived from file names, and of the two rows only the one loaded first
    is kept, also in prefixed mode. *)
Theorem C9_prefixed_ids_can_collide :
  (forall ag s, new_id true ag s = ag +:+ "_" +:+ s) /\
  (forall ag s t, new_id true (ag +:+ "_" +:+ s) t = new_id true ag (s +:+ "_" +:+ t)) /\
  ("A", "B_C") <> ("A_B", "C") /\
  new_id true "A" "B_C" = "A_B_C" /\
  new_id true "A_B" "C" = "A_B_C" /\
  agency_code "a" = "A" /\
  agency_code "a_b" = "A_B" /\
  (harmonize_and_consolidate colliding_agencies true).1 =
    [("A_B_C", consolidated_row "A" "B_C" stop_b_c)] /\
  ("A_B_C", consolidated_row "A_B" "C" stop_c)
    ∉ (harmonize_and_consolidate colliding_agencies true).1.
Proof.
  split; [reflexivity|]. split.
  { intros ag s t. unfold new_id. rewrite !app_assoc_str. reflexivity. }
  split; [discriminate|]. do 4 (split; [reflexivity|]).
  assert (E : (harmonize_and_consolidate colliding_agencies true).1 =
              [("A_B_C", consolidated_row "A" "B_C" stop_b_c)])
    by (vm_compute; reflexivity).
  split; [exact E|]. rewrite E. intros H. apply list_elem_of_singleton in H.
  pose proof (f_equal (fun p : string * RawRow => snd p !! "_agency") H) as H'.
  cbv beta in H'. cbn [snd] in H'. rewrite !consolidated_row_agency in H'.
  discriminate.
Qed.

(* ===================================================================== *)
(** ** Properties of the emitted features *)
(* ===================================================================== *)

(** C5: the geometry of every emitted feature is a Point whose coordinates
    are the longitude followed by the latitude, each the value [float]
    gives for the coordinate field of the stop row that the feature's id
    holds in the consolidated mapping: [stop_lon] and [stop_lat] when the
    row has them, else [lon] and [lat]. *)
Theorem C5_coordinates_are_lon_lat
    (set_order : gset string -> list string) (now : string)
    (prefix skip_enrich : bool) (datasets : odict Dataset) (f : Feature) :
  f ∈ features (process set_order now prefix skip_enrich datasets) ->
  g_type (geometry f) = "Point" /\
  exists ag ds row lon_v lat_v,
    (ag, ds) ∈ datasets /\ row ∈ stops ds /\
    key_of "stop_id" row <> "" /\
    f_id f = new_id prefix ag (key_of "stop_id" row) /\
    odict_get (f_id f) (harmonize_and_consolidate datasets prefix).1 =
      Some (consolidated_row ag (key_of "stop_id" row) row) /\
    Py.float (lon_field row) = Some lon_v /\
    Py.float (lat_field row) = Some lat_v /\
    coordinates (geometry f) = [lon_v; lat_v] /\
    (forall v, row !! "stop_lon" = Some v -> v <> "" -> lon_field row = v) /\
    (forall v, row !! "stop_lat" = Some v -> v <> "" -> lat_field row = v).
Proof.
  rewrite process_unfold, create_geojson_elem.
  intros (sid & s & Hin & ->). split; [reflexivity|].
  apply filter_elem in Hin as (crow & Hc & Hclean).
  pose proof (odict_get_nodup _ _ _ (consolidated_nodup datasets prefix) Hc) as Hget.
  apply consolidated_elem in Hc as (ag & ds & row & Hd & Hr & Hcand).
  apply candidate_inv in Hcand as (Hne & [= -> ->]).
  apply clean_row_Some in Hclean as (Hlat & Hlon & _).
  rewrite lat_field_consolidated in Hlat. rewrite lon_field_consolidated in Hlon.
  exists ag, ds, row, (cs_stop_lon s), (cs_stop_lat s).
  repeat (split; [first [assumption|reflexivity]|]).
  split; intros v Hv Hnz; [unfold lon_field|unfold lat_field];
    apply or_else_present; assumption.
Qed.

(** The feature of a stop at latitude 35.1 and longitude 33.3. *)
Lemma C5_witness :
  exists f,
    g_type (geometry f) = "Point" /\
    coordinates (geometry f) = [Py.Fdec false 333 (-1); Py.Fdec false 351 (-1)].
Proof.
  set (f := make_feature ∅ ∅ "A_1"
              {| cs_stop_id := "A_1"; cs_orig_stop_id := Some "1";
                 cs_agency := Some "A"; cs_stop_name := ""; cs_stop_code := "";
                 cs_location_type := 0; cs_parent_station := "";
                 cs_stop_lat := Py.Fdec false 351 (-1);
                 cs_stop_lon := Py.Fdec false 333 (-1) |}).
  assert (Hin : f ∈ features (process elements "2024-01-01T00:00:00Z" true true
                                      [("A", stops_only [stop_ok])]))
    by (vm_compute; left).
  destruct (C5_coordinates_are_lon_lat _ _ _ _ _ _ Hin) as [Hp _].
  exists f. split; [exact Hp|reflexivity].
Defined.

(** C6: with route enrichment skipped the join result is empty and the
    [routes_serving] list of every emitted feature is empty, whatever the
    tables hold. *)
Theorem C6_skip_enrichment_gives_no_routes
    (read_csv_from_bytes : list Byte.byte -> list RawRow)
    (set_order : gset string -> list string) (now : string) (prefix : bool) :
  (forall datasets,
     process set_order now prefix true datasets =
     create_geojson now
       (filter_and_clean_stops (harmonize_and_consolidate datasets prefix).1)
       ∅ (build_route_mappings datasets prefix).1) /\
  (forall datasets,
     Forall (fun f => routes_serving (properties f) = [])
            (features (process set_order now prefix true datasets))) /\
  (forall archives fc,
     main read_csv_from_bytes set_order now prefix true archives = Some fc ->
     Forall (fun f => routes_serving (properties f) = []) (features fc)).
Proof.
  assert (H1 : forall datasets,
             process set_order now prefix true datasets =
             create_geojson now
               (filter_and_clean_stops (harmonize_and_consolidate datasets prefix).1)
               ∅ (build_route_mappings datasets prefix).1)
    by (intros; apply process_unfold).
  assert (H2 : forall datasets,
             Forall (fun f => routes_serving (properties f) = [])
                    (features (process set_order now prefix true datasets))).
  { intros datasets. rewrite H1. apply Forall_forall. intros f Hf.
    apply create_geojson_elem in Hf as (sid & s & _ & ->).
    rewrite make_feature_routes, lookup_empty. reflexivity. }
  split; [exact H1|]. split; [exact H2|].
  intros archives fc. unfold main. destruct archives; [discriminate|].
  intros [= <-]. apply H2.
Qed.

(** A full archive: 12 is joined to the stop, and is gone with the
    enrichment skipped. *)
Lemma C6_witness :
  routes_serving <$> (properties <$>
    features (process elements a_date true false
                (extract_relevant_tables toy_csv [("A", full_zip)]))) = [["12"]] /\
  Forall (fun f => routes_serving (properties f) = [])
         (features (process elements a_date true true
                      (extract_relevant_tables toy_csv [("A", full_zip)]))).
Proof.
  split; [vm_compute; reflexivity|].
  apply (proj1 (proj2 (C6_skip_enrichment_gives_no_routes toy_csv elements a_date true))).
Defined.

(* ===================================================================== *)
(** ** Properties of the join *)
(* ===================================================================== *)

(** C1, as stated, fails.  When another trip of the stop runs on the same
    route, taking out the trips row of T leaves 12 in [routes_serving]; and
    with the three rows present, a later trips row for T on another route,
    or a later routes row for R with another short name, keeps 12 out of
    it. *)
Lemma C1_join_counterexamples :
  routes_serving <$> (properties <$>
    features (process elements a_date true false
                [("A", same_route_ds [trip_row "T" "R"; trip_row "U" "R"])])) = [["12"]] /\
  routes_serving <$> (properties <$>
    features (process elements a_date true false
                [("A", same_route_ds [trip_row "U" "R"])])) = [["12"]] /\
  routes_serving <$> (properties <$>
    features (process elements a_date true false [("A", dup_trip_ds)])) = [["20"]] /\
  routes_serving <$> (properties <$>
    features (process elements a_date true false [("A", dup_route_ds)])) = [["13"]].
Proof. repeat split; vm_compute; reflexivity. Qed.

(** C1 (amended): take a stop_times row (stop S, trip T), a trips row
    (trip T, route R) and a routes row (route R, short name 12) of one
    agency, ids read after stripping and not empty, the stop of S having
    passed the filter.  If every trips row that writes the harmonised id of
    T writes the harmonised id of R, and every routes row that writes the
    harmonised id of R has the short name 12, the feature of S has 12 in
    [routes_serving].  With that trips row taken out and no trips row left
    for T, the [routes_serving] of the feature of S holds exactly the names
    of the routes that the other trips of the stop resolve to on the
    original tables: what other trips contribute stays, and 12 goes unless
    another trip contributes it. *)
Theorem C1_join_through_trips_to_routes
    (set_order : gset string -> list string) (now : string) (prefix : bool)
    (l1 l2 : odict Dataset) (ag : string) (ds : Dataset)
    (t1 t2 : list RawRow) (st t r : RawRow) (S T R : string) :
  let datasets := l1 ++ (ag, ds) :: l2 in
  let datasets' := l1 ++ (ag, with_trips ds (t1 ++ t2)) :: l2 in
  let pfx := ag_prefix prefix ag in
  let sid := new_id prefix ag S in
  (forall s, set_order s ≡ₚ elements s) ->
  trips ds = t1 ++ t :: t2 ->
  st ∈ stop_times ds ->
  key_of "stop_id" st = S -> key_of "trip_id" st = T -> S <> "" -> T <> "" ->
  key_of "trip_id" t = T -> key_of "route_id" t = R -> R <> "" ->
  r ∈ routes ds -> key_of "route_id" r = R -> r !! "route_short_name" = Some "12" ->
  (forall v, (pfx +:+ T, v) ∈ trip_entries prefix datasets -> v = pfx +:+ R) ->
  (forall m, (pfx +:+ R, m) ∈ route_entries prefix datasets -> route_short_name m = "12") ->
  is_Some (odict_get sid
             (filter_and_clean_stops (harmonize_and_consolidate datasets prefix).1)) ->
  (exists f, f ∈ features (process set_order now prefix false datasets) /\ f_id f = sid) /\
  (forall f, f ∈ features (process set_order now prefix false datasets) ->
             f_id f = sid -> "12" ∈ routes_serving (properties f)) /\
  ((forall v, (pfx +:+ T, v) ∉ trip_entries prefix datasets') ->
   (exists f', f' ∈ features (process set_order now prefix false datasets') /\
               f_id f' = sid) /\
   forall f', f' ∈ features (process set_order now prefix false datasets') ->
     f_id f' = sid ->
     forall x, x ∈ routes_serving (properties f') <->
       exists tid rid,
         (sid, tid) ∈ stop_time_links prefix datasets /\ tid <> pfx +:+ T /\
         (build_route_mappings datasets prefix).2 !! tid = Some rid /\
         display_route (build_route_mappings datasets prefix).1 rid = x).
Proof.
  intros datasets datasets' pfx sid.
  assert (Ed : datasets = l1 ++ (ag, ds) :: l2) by reflexivity.
  assert (Ed' : datasets' = l1 ++ (ag, with_trips ds (t1 ++ t2)) :: l2) by reflexivity.
  assert (Ep : pfx = ag_prefix prefix ag) by reflexivity.
  assert (Es : sid = new_id prefix ag S) by reflexivity.
  clearbody datasets datasets' pfx sid.
  intros Hord Htrips Hst HS HT HSne HTne HtT HtR HRne
         Hr HrR Hname Htrip_agree Hroute_agree Hsurv.
  assert (Hmem : (ag, ds) ∈ datasets) by (rewrite Ed; apply elem_of_app; right; left).
  (* the three rows, as entries of the three flat views *)
  assert (Hlink : (sid, pfx +:+ T) ∈ stop_time_links prefix datasets).
  { apply stop_time_links_elem. exists ag, ds, st. split; [exact Hmem|].
    split; [exact Hst|]. rewrite <- Ep, stop_time_link_Some by congruence.
    rewrite Es, new_id_prefix, <- Ep, HS, HT. reflexivity. }
  assert (Hte : (pfx +:+ T, pfx +:+ R) ∈ trip_entries prefix datasets).
  { apply trip_entries_elem. exists ag, ds, t. split; [exact Hmem|]. split.
    - rewrite Htrips. apply elem_of_app. right. left.
    - rewrite <- Ep, trip_entry_Some by congruence. rewrite HtT, HtR. reflexivity. }
  assert (Hre : exists m, (pfx +:+ R, m) ∈ route_entries prefix datasets).
  { destruct (route_entry_Some pfx ag r) as [m Hm]; [congruence|].
    exists m. apply route_entries_elem. exists ag, ds, r.
    split; [exact Hmem|]. split; [exact Hr|]. rewrite <- Ep, Hm, HrR. reflexivity. }
  (* what the two dictionaries hold for them *)
  assert (Ht2r : (build_route_mappings datasets prefix).2 !! (pfx +:+ T) = Some (pfx +:+ R)).
  { rewrite trip_to_route_lookup. apply assoc_last_agree; [|exact Htrip_agree].
    change (pfx +:+ T) with ((pfx +:+ T, pfx +:+ R).1) at 1.
    apply list_elem_of_fmap_2, Hte. }
  assert (Hdisp : display_route (build_route_mappings datasets prefix).1 (pfx +:+ R) = "12").
  { unfold display_route. rewrite route_info_lookup.
    destruct Hre as [m0 Hm0].
    destruct (assoc_last (pfx +:+ R) (route_entries prefix datasets)) as [m|] eqn:E.
    - apply assoc_last_elem in E. rewrite (Hroute_agree m E). reflexivity.
    - apply assoc_last_None in E. exfalso. apply E.
      change (pfx +:+ R) with ((pfx +:+ R, m0).1). apply list_elem_of_fmap_2, Hm0. }
  (* the features of the stop *)
  assert (Hfeat : forall d,
             (harmonize_and_consolidate d prefix).1 =
             (harmonize_and_consolidate datasets prefix).1 ->
             exists f, f ∈ features (process set_order now prefix false d) /\ f_id f = sid).
  { intros d Hd. destruct Hsurv as [s Hs]. apply odict_get_elem in Hs.
    exists (make_feature
              (build_stop_to_routes_in set_order d (build_route_mappings d prefix).2 prefix)
              (build_route_mappings d prefix).1 sid s).
    split; [|reflexivity]. rewrite process_unfold, Hd. apply create_geojson_elem.
    exists sid, s. split; [exact Hs|reflexivity]. }
  split; [apply Hfeat; reflexivity|]. split.
  - intros f Hf Hid. rewrite process_unfold in Hf.
    apply create_geojson_elem in Hf as (sid' & s & _ & ->). simpl in Hid. subst sid'.
    apply (routes_serving_elem set_order Hord). exists (pfx +:+ T), (pfx +:+ R).
    split; [exact Hlink|]. split; [exact Ht2r|]. split; [|exact Hdisp].
    apply app_nonempty_r, HRne.
  - intros Hgone.
    assert (Hcons : (harmonize_and_consolidate datasets' prefix).1 =
                    (harmonize_and_consolidate datasets prefix).1)
      by (rewrite Ed', Ed; apply with_trips_consolidated).
    assert (Hri : (build_route_mappings datasets' prefix).1 =
                  (build_route_mappings datasets prefix).1)
      by (rewrite Ed', Ed; apply with_trips_route_info).
    assert (Hlinks : stop_time_links prefix datasets' = stop_time_links prefix datasets)
      by (rewrite Ed', Ed; apply with_trips_stop_time_links).
    assert (Hnone : (build_route_mappings datasets' prefix).2 !! (pfx +:+ T) = None).
    { rewrite trip_to_route_lookup. apply assoc_last_None. intros Hin.
      apply list_elem_of_fmap in Hin as ([k v] & Hk & Hin). simpl in Hk. subst k.
      exact (Hgone v Hin). }
    assert (Hsame : forall tid, tid <> pfx +:+ T ->
               (build_route_mappings datasets' prefix).2 !! tid =
               (build_route_mappings datasets prefix).2 !! tid).
    { intros tid Hne. rewrite !trip_to_route_lookup.
      rewrite Ed', Ed, with_trips_trip_entries, trip_entries_split, <- Ep.
      rewrite Htrips, !omap_app. cbn [omap list_omap].
      rewrite (trip_entry_Some _ t) by congruence. rewrite HtT, HtR.
      rewrite !assoc_last_app. cbn [assoc_last].
      rewrite decide_False by congruence.
      destruct (assoc_last tid (trip_entries prefix l2)); [reflexivity|].
      destruct (assoc_last tid (omap (trip_entry pfx) t2)); reflexivity. }
    split; [apply Hfeat, Hcons|].
    intros f' Hf Hid x. rewrite process_unfold in Hf. cbn [negb] in Hf.
    apply create_geojson_elem in Hf as (sid' & s & _ & ->). simpl in Hid. subst sid'.
    rewrite (routes_serving_elem set_order Hord), Hri, Hlinks. split.
    + intros (tid & rid & H1 & H2 & H3 & H4).
      assert (Hne : tid <> pfx +:+ T) by (intros ->; congruence).
      exists tid, rid. rewrite <- (Hsame tid Hne). auto.
    + intros (tid & rid & H1 & Hne & H2 & H3).
      exists tid, rid. rewrite (Hsame tid Hne).
      split; [exact H1|]. split; [exact H2|]. split; [|exact H3].
      apply (trip_to_route_value _ _ _ _ H2).
Qed.

(** Trip T on route R (12) and trip U on route Q (20) at stop 1. *)
Lemma C1_witness :
  (forall f, f ∈ features (process elements a_date true false [("A", two_routes_ds)]) ->
             f_id f = "A_1" -> "12" ∈ routes_serving (properties f)) /\
  (exists f', f' ∈ features (process elements a_date true false
                               [("A", with_trips two_routes_ds [trip_row "U" "Q"])]) /\
              f_id f' = "A_1").
Proof.
  pose proof (C1_join_through_trips_to_routes
                elements a_date true [] [] "A" two_routes_ds
                [] [trip_row "U" "Q"]
                (stop_time_row "T" "1") (trip_row "T" "R") (route_row "R" "12")
                "1" "T" "R") as H.
  cbv zeta in H.
  destruct H as (_ & H1 & H2).
  - intros s. reflexivity.
  - reflexivity.
  - left.
  - vm_compute. reflexivity.
  - vm_compute. reflexivity.
  - discriminate.
  - discriminate.
  - vm_compute. reflexivity.
  - vm_compute. reflexivity.
  - discriminate.
  - left.
  - vm_compute. reflexivity.
  - vm_compute. reflexivity.
  - intros v Hin. vm_compute in Hin.
    inversion Hin as [|? ? ? Hin']; subst; [reflexivity|].
    inversion Hin' as [|? ? ? Hin'']; subst. inversion Hin''.
  - intros m Hin. vm_compute in Hin.
    inversion Hin as [|? ? ? Hin']; subst; [reflexivity|].
    inversion Hin' as [|? ? ? Hin'']; subst. inversion Hin''.
  - vm_compute. eauto.
  - split; [exact H1|]. apply H2.
    intros v Hin. vm_compute in Hin.
    inversion Hin as [|? ? ? Hin']; subst. inversion Hin'.
Defined.

(* ===================================================================== *)
(** ** Properties of the whole run *)
(* ===================================================================== *)

(** C7: the output is a function of the archives and the configuration
    alone, the generation date apart.  The one place where Python leaves an
    order open, the iteration over the route set of a stop, is closed by
    [sorted]: whatever order the sets are read in, and whatever the clock
    says, two runs give the same document up to [date_generated]. *)
Theorem C7_output_determined_up_to_date
    (read_csv_from_bytes : list Byte.byte -> list RawRow)
    (ord1 ord2 : gset string -> list string) (now1 now2 : string)
    (prefix skip_enrich : bool) (archives : list (string * Archive)) :
  (forall s, ord1 s ≡ₚ elements s) ->
  (forall s, ord2 s ≡ₚ elements s) ->
  main read_csv_from_bytes ord1 now1 prefix skip_enrich archives =
  with_date now1 <$> main read_csv_from_bytes ord2 now2 prefix skip_enrich archives.
Proof.
  intros H1 H2. unfold main. destruct archives as [|a archives]; [reflexivity|].
  simpl. f_equal. rewrite !process_unfold.
  rewrite (build_stop_to_routes_order ord1 ord2) by assumption. reflexivity.
Qed.

(** Reading the sets backwards, at another date. *)
Lemma C7_witness :
  main toy_csv elements a_date true false [("A", full_zip)] =
  with_date a_date
    <$> main toy_csv (fun s => reverse (elements s)) "1999-12-31T23:59:59Z" true false
             [("A", full_zip)].
Proof.
  apply C7_output_determined_up_to_date.
  - intros s. reflexivity.
  - intros s. apply reverse_Permutation.
Defined.

(** C8: a table with no member whose lower-cased name ends with its
    lower-cased base name is loaded as the empty table; the archive still
    gets its dataset, the run gives a document, and an archive without
    trips or without stop_times gets no route enrichment. *)
Theorem C8_missing_table_loads_empty
    (read_csv_from_bytes : list Byte.byte -> list RawRow) (z : Archive) :
  let absent m :=
    Forall (fun n => Py.endswith (Py.lower n) (Py.lower m) = false) (zmembers z).*1 in
  (forall m, absent m -> read_csv_from_zip read_csv_from_bytes z m = None) /\
  (absent "stops.txt" -> stops (extract_one read_csv_from_bytes z) = []) /\
  (absent "routes.txt" -> routes (extract_one read_csv_from_bytes z) = []) /\
  (absent "trips.txt" -> trips (extract_one read_csv_from_bytes z) = []) /\
  (absent "stop_times.txt" -> stop_times (extract_one read_csv_from_bytes z) = []) /\
  (forall ag archives, (ag, z) ∈ archives ->
     is_Some (odict_get ag (extract_relevant_tables read_csv_from_bytes archives))) /\
  (forall set_order now prefix skip_enrich ag archives, (ag, z) ∈ archives ->
     is_Some (main read_csv_from_bytes set_order now prefix skip_enrich archives)) /\
  (forall set_order now prefix skip_enrich ag,
     absent "trips.txt" \/ absent "stop_times.txt" ->
     exists fc,
       main read_csv_from_bytes set_order now prefix skip_enrich [(ag, z)] = Some fc /\
       Forall (fun f => routes_serving (properties f) = []) (features fc)).
Proof.
  intros absent.
  assert (H0 : forall m, absent m -> read_csv_from_zip read_csv_from_bytes z m = None)
    by (intros m; apply read_csv_no_match).
  split; [exact H0|].
  split; [intros H; simpl; rewrite (H0 _ H); reflexivity|].
  split; [intros H; simpl; rewrite (H0 _ H); reflexivity|].
  split; [intros H; simpl; rewrite (H0 _ H); reflexivity|].
  split; [intros H; simpl; rewrite (H0 _ H); reflexivity|].
  split; [|split].
  - intros ag archives Hin. unfold extract_relevant_tables. rewrite extract_fold_get.
    destruct (assoc_last ag archives) eqn:E; [eauto|].
    apply assoc_last_None in E. exfalso. apply E.
    change ag with ((ag, z).1). apply list_elem_of_fmap_2, Hin.
  - intros set_order now prefix skip_enrich ag archives Hin. unfold main.
    destruct archives; [inversion Hin|eauto].
  - intros set_order now prefix skip_enrich ag H. eexists. split; [reflexivity|].
    apply no_enrichment. simpl. destruct H as [H|H]; rewrite (H0 _ H); auto.
Qed.

(** An archive with stops and routes only, next to a full one. *)
Lemma C8_witness :
  trips (extract_one toy_csv stops_only_zip) = [] /\
  stop_times (extract_one toy_csv stops_only_zip) = [] /\
  stops (extract_one toy_csv stops_only_zip) <> [] /\
  is_Some (main toy_csv elements a_date true false
                [("A", full_zip); ("B", stops_only_zip)]).
Proof.
  destruct (C8_missing_table_loads_empty toy_csv stops_only_zip)
    as (_ & _ & _ & H3 & H4 & _ & H6 & _).
  split; [apply H3; vm_compute; repeat constructor|].
  split; [apply H4; vm_compute; repeat constructor|].
  split; [vm_compute; discriminate|].
  apply (H6 elements a_date true false "B"). right. left.
Defined.

(** C10: the datasets are keyed by agency code, so of several archives
    with one agency code only the last one counts: the dataset of the code
    is read from the last such archive, and what an earlier one holds
    changes neither the datasets nor the document.  Distinct file names can
    give one agency code. *)
Theorem C10_same_agency_code_last_archive_wins
    (read_csv_from_bytes : list Byte.byte -> list RawRow) :
  (forall archives,
     NoDup (odict_keys (extract_relevant_tables read_csv_from_bytes archives))) /\
  (forall archives ag,
     odict_get ag (extract_relevant_tables read_csv_from_bytes archives) =
     extract_one read_csv_from_bytes <$> assoc_last ag archives) /\
  (forall l1 l2 l3 ag z1 z1' z2,
     extract_relevant_tables read_csv_from_bytes
       (l1 ++ (ag, z1) :: l2 ++ (ag, z2) :: l3) =
     extract_relevant_tables read_csv_from_bytes
       (l1 ++ (ag, z1') :: l2 ++ (ag, z2) :: l3)) /\
  (forall set_order now prefix skip_enrich l1 l2 l3 ag z1 z1' z2,
     main read_csv_from_bytes set_order now prefix skip_enrich
       (l1 ++ (ag, z1) :: l2 ++ (ag, z2) :: l3) =
     main read_csv_from_bytes set_order now prefix skip_enrich
       (l1 ++ (ag, z1') :: l2 ++ (ag, z2) :: l3)) /\
  "a b" <> "a-b" /\
  agency_code "a b" = agency_code "a-b" /\
  (forall z1 z2,
     load_gtfs_archives_from_local [("a b", z1); ("a-b", z2)] =
     [("A_B", z1); ("A_B", z2)]).
Proof.
  split; [apply extract_nodup|]. split.
  { intros archives ag. unfold extract_relevant_tables. rewrite extract_fold_get.
    destruct (assoc_last ag archives); reflexivity. }
  split; [apply extract_shadowed|]. split.
  { intros set_order now prefix skip_enrich l1 l2 l3 ag z1 z1' z2. unfold main.
    rewrite (extract_shadowed read_csv_from_bytes l1 l2 l3 ag z1 z1' z2).
    destruct l1; reflexivity. }
  split; [discriminate|]. split; reflexivity.
Qed.

(** The same archive name twice: the first content does not matter. *)
Lemma C10_witness :
  extract_relevant_tables toy_csv [("A", stops_only_zip); ("A", full_zip)] =
  extract_relevant_tables toy_csv [("A", full_zip); ("A", full_zip)].
Proof.
  apply (proj1 (proj2 (proj2 (C10_same_agency_code_last_archive_wins toy_csv)))
           [] [] [] "A" stops_only_zip full_zip full_zip).
Defined.

(* ===================================================================== *)
(** ** Further properties: archive loading *)
(* ===================================================================== *)

Lemma assoc_last_is_Some {V} (k : string) (l : list (string * V)) :
  is_Some (assoc_last k l) <-> k ∈ l.*1.
Proof.
  rewrite <- not_eq_None_Some, assoc_last_None.
  split; [apply dec_stable|]. intros H Hn. exact (Hn H).
Qed.

(** X1: [read_csv_from_zip] finds a table exactly when the archive exists
    and some member name ends, letter case apart, with the table name. *)
Theorem X1_table_found_iff_member_matches
    (read_csv_from_bytes : list Byte.byte -> list RawRow)
    (z : Archive) (member_name : string) :
  is_Some (read_csv_from_zip read_csv_from_bytes z member_name) <->
  zexists z = true /\
  exists n, n ∈ (zmembers z).*1 /\
            Py.endswith (Py.lower n) (Py.lower member_name) = true.
Proof.
  unfold read_csv_from_zip. destruct (zexists z); simpl.
  2:{ split; [intros [? ?]; discriminate|intros [? _]; discriminate]. }
  set (P := fun n => Is_true (Py.endswith (Py.lower n) (Py.lower member_name))).
  destruct (filter P (zmembers z).*1) as [|c cs] eqn:E.
  - split; [intros [? ?]; discriminate|]. intros (_ & n & Hin & Hn). exfalso.
    assert (Hf : n ∈ filter P (zmembers z).*1).
    { apply list_elem_of_filter. split; [|exact Hin]. unfold P. rewrite Hn. exact I. }
    rewrite E in Hf. inversion Hf.
  - assert (Hc : c ∈ filter P (zmembers z).*1) by (rewrite E; left).
    apply list_elem_of_filter in Hc as [Hp Hc].
    destruct (proj2 (assoc_last_is_Some c (zmembers z)) Hc) as [b Hb].
    unfold zip_open. rewrite Hb. split; [|eauto].
    intros _. split; [reflexivity|]. exists c. split; [exact Hc|].
    apply Is_true_true. exact Hp.
Qed.

(** X2: the table is read from the first member, in directory order, whose
    name matches; when that name occurs again, from its last occurrence. *)
Theorem X2_first_matching_member_is_read
    (read_csv_from_bytes : list Byte.byte -> list RawRow)
    (z : Archive) (member_name n : string) (b : list Byte.byte)
    (pre post : list (string * list Byte.byte)) :
  zexists z = true ->
  zmembers z = pre ++ (n, b) :: post ->
  Forall (fun n' => Py.endswith (Py.lower n') (Py.lower member_name) = false) pre.*1 ->
  Py.endswith (Py.lower n) (Py.lower member_name) = true ->
  (n ∉ post.*1 ->
   read_csv_from_zip read_csv_from_bytes z member_name = Some (read_csv_from_bytes b)) /\
  (forall b', assoc_last n post = Some b' ->
   read_csv_from_zip read_csv_from_bytes z member_name = Some (read_csv_from_bytes b')).
Proof.
  intros Hex Hm Hpre Hn. unfold read_csv_from_zip. rewrite Hex, Hm. simpl.
  rewrite fmap_app, filter_app, fmap_cons.
  assert (filter (fun n0 => Is_true (Py.endswith (Py.lower n0) (Py.lower member_name)))
                 pre.*1 = []) as ->.
  { induction Hpre as [|x l Hx _ IH]; [reflexivity|].
    rewrite filter_cons_False; [exact IH|]. cbv beta. rewrite Hx. exact id. }
  cbn [fst].
  rewrite filter_cons_True by (cbv beta; rewrite Hn; exact I). cbn [app].
  unfold zip_open. rewrite assoc_last_app. cbn [assoc_last].
  rewrite decide_True by reflexivity. split.
  - intros Hpost. apply assoc_last_None in Hpost. rewrite Hpost. reflexivity.
  - intros b' Hb'. rewrite Hb'. reflexivity.
Qed.

(** In [nested_zip] the folder copy of stops.txt comes first and is the one
    read, whatever the letter case of its name. *)
Lemma X2_witness :
  read_csv_from_zip toy_csv nested_zip "stops.txt" = Some (toy_csv [Byte.x31]) /\
  read_csv_from_zip toy_csv nested_zip "old/stops.txt" = Some (toy_csv [Byte.x31]).
Proof.
  assert (Hpre : Forall (fun n' => Py.endswith (Py.lower n') (Py.lower "stops.txt") = false)
                        [("readme.md", [Byte.x30])].*1) by (repeat constructor).
  assert (Hpre' : Forall (fun n' => Py.endswith (Py.lower n') (Py.lower "old/stops.txt") = false)
                         [("readme.md", [Byte.x30])].*1) by (repeat constructor).
  assert (Hpost : "old/Stops.TXT" ∉ [("stops.txt", @nil Byte.byte); ("stops.txt", [Byte.x32])].*1).
  { intros H. apply elem_of_cons in H as [H|H]; [discriminate|].
    apply elem_of_cons in H as [H|H]; [discriminate|]. inversion H. }
  split.
  - apply (proj1 (X2_first_matching_member_is_read toy_csv nested_zip "stops.txt"
             "old/Stops.TXT" [Byte.x31] [("readme.md", [Byte.x30])]
             [("stops.txt", []); ("stops.txt", [Byte.x32])]
             eq_refl eq_refl Hpre eq_refl)), Hpost.
  - apply (proj1 (X2_first_matching_member_is_read toy_csv nested_zip "old/stops.txt"
             "old/Stops.TXT" [Byte.x31] [("readme.md", [Byte.x30])]
             [("stops.txt", []); ("stops.txt", [Byte.x32])]
             eq_refl eq_refl Hpre' eq_refl)), Hpost.
Defined.

Lemma upper_word_char (c : ascii) :
  is_word_char c = true -> is_code_char (Py.upper_char c) = true.
Proof.
  destruct c as [[|] [|] [|] [|] [|] [|] [|] [|]]; vm_compute;
    first [reflexivity | discriminate].
Qed.

Lemma code_char_fixed (c : ascii) :
  is_code_char c = true -> is_word_char c = true /\ Py.upper_char c = c.
Proof.
  destruct c as [[|] [|] [|] [|] [|] [|] [|] [|]]; vm_compute;
    first [discriminate | split; reflexivity].
Qed.

Lemma sanitize_go_word (in_run : bool) (s : string) :
  string_forall is_word_char (sanitize_go in_run s) = true.
Proof.
  revert in_run. induction s as [|c r IH]; intros in_run; simpl; [reflexivity|].
  destruct (is_word_char c) eqn:E; simpl.
  - rewrite E, IH. reflexivity.
  - destruct in_run; simpl; rewrite ?IH; reflexivity.
Qed.

Lemma upper_code (s : string) :
  string_forall is_word_char s = true ->
  string_forall is_code_char (Py.upper s) = true.
Proof.
  unfold Py.upper. induction s as [|c r IH]; simpl; [reflexivity|].
  intros H. apply andb_true_iff in H as [Hc Hr].
  rewrite (upper_word_char c Hc), (IH Hr). reflexivity.
Qed.

Lemma agency_code_alphabet (stem : string) :
  string_forall is_code_char (agency_code stem) = true.
Proof. apply upper_code, sanitize_go_word. Qed.

Lemma agency_code_fixed (s : string) :
  string_forall is_code_char s = true -> agency_code s = s.
Proof.
  unfold agency_code, sanitize, Py.upper. generalize false.
  induction s as [|c r IH]; intros b; simpl; [reflexivity|].
  intros H. apply andb_true_iff in H as [Hc Hr].
  destruct (code_char_fixed c Hc) as [Hw Hu]. rewrite Hw. simpl.
  rewrite Hu. f_equal. apply IH, Hr.
Qed.

Lemma sanitize_go_nonempty (in_run : bool) (s : string) :
  in_run = false -> s <> "" -> sanitize_go in_run s <> "".
Proof.
  intros -> Hs. destruct s as [|c r]; [congruence|]. simpl.
  destruct (is_word_char c); discriminate.
Qed.

Lemma load_local_fmap (zips : list (string * Archive)) :
  load_gtfs_archives_from_local zips = (fun p => (agency_code p.1, p.2)) <$> zips.
Proof.
  unfold load_gtfs_archives_from_local.
  enough (H : forall acc,
             fold_left (fun out '(stem, z) => out ++ [(agency_code stem, z)]) zips acc =
             acc ++ ((fun p => (agency_code p.1, p.2)) <$> zips)) by apply (H []).
  induction zips as [|[stem z] l IH]; intros acc; simpl.
  - rewrite app_nil_r. reflexivity.
  - rewrite IH, <- app_assoc. reflexivity.
Qed.

(** X3: [load_gtfs_archives_from_local] keeps the archives and their
    order, and every agency code it derives is made of upper-case
    letters, digits and underscores only, and is not empty when the file
    stem is not. *)
Theorem X3_local_archives_order_and_code_alphabet (zips : list (string * Archive)) :
  (load_gtfs_archives_from_local zips).*2 = zips.*2 /\
  Forall (fun p => string_forall is_code_char p.1 = true)
         (load_gtfs_archives_from_local zips) /\
  Forall2 (fun p q => q.1 = agency_code p.1 /\ (p.1 <> "" -> q.1 <> ""))
          zips (load_gtfs_archives_from_local zips).
Proof.
  rewrite load_local_fmap. split; [|split].
  - rewrite <- list_fmap_compose. reflexivity.
  - apply Forall_fmap, Forall_forall. intros [stem z] _. apply agency_code_alphabet.
  - apply Forall2_fmap_r, Forall2_same_length_lookup_2; [reflexivity|].
    intros i [s1 z1] [s2 z2] H1 H2. rewrite H1 in H2. injection H2 as <- <-.
    split; [reflexivity|]. simpl. intros Hs. unfold agency_code, sanitize.
    pose proof (sanitize_go_nonempty false s1 eq_refl Hs) as Hn.
    destruct (sanitize_go false s1); [congruence|discriminate].
Qed.

(** X4: deriving an agency code is idempotent, and the strings it leaves
    unchanged are exactly those made of upper-case letters, digits and
    underscores. *)
Theorem X4_agency_code_idempotent (s : string) :
  agency_code (agency_code s) = agency_code s /\
  (agency_code s = s <-> string_forall is_code_char s = true).
Proof.
  split.
  - apply agency_code_fixed, agency_code_alphabet.
  - split; [|apply agency_code_fixed]. intros <-. apply agency_code_alphabet.
Qed.

Lemma extract_fold_fresh
    (read_csv_from_bytes : list Byte.byte -> list RawRow)
    (l : list (string * Archive)) (d : odict Dataset) :
  NoDup (odict_keys d ++ l.*1) ->
  fold_left (fun datasets '(agency_code, zpath) =>
               odict_set agency_code (extract_one read_csv_from_bytes zpath) datasets)
            l d =
  d ++ ((fun p => (p.1, extract_one read_csv_from_bytes p.2)) <$> l).
Proof.
  revert d. induction l as [|[ag z] l IH]; intros d Hnd; simpl.
  - rewrite app_nil_r. reflexivity.
  - assert (Hfresh : odict_get ag d = None).
    { apply odict_get_None. intros Hin. apply NoDup_app in Hnd as (_ & Hd & _).
      apply (Hd ag Hin). left. }
    rewrite (odict_set_fresh _ _ _ Hfresh), IH.
    + rewrite <- app_assoc. reflexivity.
    + unfold odict_keys. rewrite fmap_app, <- app_assoc. exact Hnd.
Qed.

(** X5: when the agency codes of the archives are pairwise distinct, no
    archive is lost: there is one dataset per archive, in the order of the
    archives, each under its code. *)
Theorem X5_distinct_codes_keep_every_archive
    (read_csv_from_bytes : list Byte.byte -> list RawRow)
    (archives : list (string * Archive)) :
  NoDup archives.*1 ->
  extract_relevant_tables read_csv_from_bytes archives =
  (fun p => (p.1, extract_one read_csv_from_bytes p.2)) <$> archives.
Proof. intros H. apply (extract_fold_fresh read_csv_from_bytes archives []), H. Qed.

Lemma X5_witness :
  odict_keys (extract_relevant_tables toy_csv [("B", full_zip); ("A", stops_only_zip)]) =
  ["B"; "A"].
Proof.
  rewrite (X5_distinct_codes_keep_every_archive toy_csv
             [("B", full_zip); ("A", stops_only_zip)]).
  - reflexivity.
  - apply NoDup_cons. split; [|apply NoDup_singleton].
    intros H. apply list_elem_of_singleton in H. discriminate.
Defined.

(* ===================================================================== *)
(** ** Further properties: identifier harmonisation and the stop filter *)
(* ===================================================================== *)

Lemma harmonize_agency_inv (prefix : bool) (datasets : odict Dataset) (k : string) :
  (harmonize_and_consolidate datasets prefix).2 !! k =
  odict_get k (harmonize_and_consolidate datasets prefix).1 ≫= (fun row => row !! "_agency").
Proof.
  unfold harmonize_and_consolidate.
  apply (fold_left_inv
           (fun acc : odict RawRow * gmap string string =>
              acc.2 !! k = odict_get k acc.1 ≫= (fun row => row !! "_agency"))).
  - reflexivity.
  - intros acc [ag ds] _ Hacc.
    apply (fold_left_inv
             (fun acc : odict RawRow * gmap string string =>
                acc.2 !! k = odict_get k acc.1 ≫= (fun row => row !! "_agency")));
      [exact Hacc|].
    clear acc Hacc. intros acc row _ Hacc. unfold harmonize_row.
    destruct (Py.truthy _); simpl; [|exact Hacc].
    destruct (odict_mem _ acc.1); [exact Hacc|]. simpl.
    rewrite odict_get_set.
    destruct (decide (new_id prefix ag (Py.strip (Py.or_else (row !! "stop_id") "")) = k))
      as [->|Hne].
    + rewrite lookup_insert_eq. simpl. rewrite consolidated_row_agency. reflexivity.
    + rewrite lookup_insert_ne by exact Hne. exact Hacc.
Qed.

(** X6: the side index [stop_to_agency] returned by
    [harmonize_and_consolidate] has exactly the keys of the consolidated
    mapping, and holds for each the [_agency] field of the stored row. *)
Theorem X6_stop_to_agency_mirrors_consolidated
    (datasets : odict Dataset) (prefix : bool) (k : string) :
  let consolidated := (harmonize_and_consolidate datasets prefix).1 in
  let stop_to_agency := (harmonize_and_consolidate datasets prefix).2 in
  (is_Some (stop_to_agency !! k) <-> k ∈ odict_keys consolidated) /\
  (forall row, odict_get k consolidated = Some row ->
     stop_to_agency !! k = row !! "_agency" /\ is_Some (row !! "_agency")).
Proof.
  intros consolidated stop_to_agency. unfold stop_to_agency, consolidated.
  assert (H2 : forall row,
             odict_get k (harmonize_and_consolidate datasets prefix).1 = Some row ->
             (harmonize_and_consolidate datasets prefix).2 !! k = row !! "_agency" /\
             is_Some (row !! "_agency")).
  { intros row Hrow. rewrite harmonize_agency_inv, Hrow. split; [reflexivity|].
    apply odict_get_elem, consolidated_elem in Hrow as (ag & ds & r & _ & _ & Hc).
    apply candidate_inv in Hc as (_ & [= _ ->]). rewrite consolidated_row_agency. eauto. }
  split; [|exact H2].
  rewrite <- odict_get_is_Some. split.
  - rewrite harmonize_agency_inv. intros [ag Hag].
    destruct (odict_get k _); [eauto|discriminate].
  - intros [row Hrow]. destruct (H2 row Hrow) as [-> H]. exact H.
Qed.

(** X7: every row of the consolidated mapping stems from a stop row of
    some agency: its key is the harmonised id of that agency and of the
    row's stripped, non-empty [stop_id]; [_agency] and [_orig_stop_id] hold
    these two; every other field is that of the stop row. *)
Theorem X7_consolidated_rows_carry_their_origin
    (datasets : odict Dataset) (prefix : bool) (k : string) (row' : RawRow) :
  (k, row') ∈ (harmonize_and_consolidate datasets prefix).1 ->
  exists ag ds row,
    (ag, ds) ∈ datasets /\ row ∈ stops ds /\
    let s := Py.strip (Py.or_else (row !! "stop_id") "") in
    s <> "" /\ Py.strip s = s /\
    k = new_id prefix ag s /\
    row' !! "_agency" = Some ag /\
    row' !! "_orig_stop_id" = Some s /\
    forall f, f <> "_agency" -> f <> "_orig_stop_id" -> row' !! f = row !! f.
Proof.
  intros H. apply consolidated_elem in H as (ag & ds & row & Hd & Hr & Hc).
  apply candidate_inv in Hc as (Hne & [= -> ->]).
  exists ag, ds, row. split; [exact Hd|]. split; [exact Hr|]. cbv zeta.
  split; [exact Hne|]. split; [apply strip_idem|]. split; [reflexivity|].
  split; [apply consolidated_row_agency|]. split.
  - unfold consolidated_row. rewrite lookup_insert_ne by discriminate.
    apply lookup_insert_eq.
  - intros f H1 H2. apply consolidated_row_other; assumption.
Qed.

Lemma X7_witness :
  exists ag ds row,
    (ag, ds) ∈ padded_agencies /\ row ∈ stops ds /\
    "B_7" = new_id true ag (Py.strip (Py.or_else (row !! "stop_id") "")).
Proof.
  assert (Hin : ("B_7", consolidated_row "B" "7" stop_padded)
                ∈ (harmonize_and_consolidate padded_agencies true).1)
    by (vm_compute; right; left).
  destruct (X7_consolidated_rows_carry_their_origin _ _ _ _ Hin)
    as (ag & ds & row & H1 & H2 & _ & _ & H3 & _).
  exists ag, ds, row. split; [exact H1|]. split; [exact H2|exact H3].
Defined.

Lemma first_wins_fresh {V} (l acc : odict V) :
  NoDup (odict_keys acc ++ odict_keys l) ->
  fold_left first_wins l acc = acc ++ l.
Proof.
  revert acc. induction l as [|[k v] l IH]; intros acc Hnd; simpl.
  - rewrite app_nil_r. reflexivity.
  - assert (Hfresh : odict_get k acc = None).
    { apply odict_get_None. intros Hin. apply NoDup_app in Hnd as (_ & Hd & _).
      apply (Hd k Hin). left. }
    unfold first_wins at 2. unfold odict_mem. simpl. rewrite Hfresh.
    rewrite (odict_set_fresh _ _ _ Hfresh), IH.
    + rewrite <- app_assoc. reflexivity.
    + unfold odict_keys in *. rewrite fmap_app, <- app_assoc. exact Hnd.
Qed.

(** X8: when no two stop rows with a non-empty id get the same harmonised
    id, harmonisation drops nothing: the consolidated mapping holds one
    entry per such row, in load order. *)
Theorem X8_no_collision_nothing_dropped (datasets : odict Dataset) (prefix : bool) :
  NoDup (candidates prefix datasets).*1 ->
  (harmonize_and_consolidate datasets prefix).1 = candidates prefix datasets.
Proof.
  intros H. rewrite harmonize_fst. apply (first_wins_fresh _ []). exact H.
Qed.

Lemma X8_witness :
  (harmonize_and_consolidate two_agencies true).1 = candidates true two_agencies.
Proof.
  apply X8_no_collision_nothing_dropped.
  assert (E : (candidates true two_agencies).*1 = ["A_1"; "B_1"])
    by (vm_compute; reflexivity).
  rewrite E. apply NoDup_cons. split; [|apply NoDup_singleton].
  intros H. apply list_elem_of_singleton in H. discriminate.
Defined.

Lemma filter_fold_fresh (l : odict RawRow) (acc : odict CleanStop) :
  NoDup (odict_keys acc ++ odict_keys l) ->
  fold_left (fun clean '(sid, row) =>
               match clean_row sid row with
               | Some c => odict_set sid c clean
               | None => clean
               end) l acc =
  acc ++ omap kept l.
Proof.
  revert acc. induction l as [|[k row] l IH]; intros acc Hnd.
  - simpl. rewrite app_nil_r. reflexivity.
  - cbn [fold_left omap list_omap]. unfold kept at 1. cbn [fst snd].
    assert (Hfresh : odict_get k acc = None).
    { apply odict_get_None. intros Hin. apply NoDup_app in Hnd as (_ & Hd & _).
      apply (Hd k Hin). left. }
    assert (Hnd' : NoDup (odict_keys acc ++ odict_keys l)).
    { unfold odict_keys in *. rewrite fmap_cons in Hnd.
      apply NoDup_app in Hnd as (H1 & H2 & H3). apply NoDup_cons in H3 as [H3 H4].
      apply NoDup_app. split; [exact H1|]. split; [|exact H4].
      intros x Hx Hx'. apply (H2 x Hx). right. exact Hx'. }
    destruct (clean_row k row) as [c|]; [|apply IH, Hnd'].
    rewrite (odict_set_fresh _ _ _ Hfresh), IH.
    + rewrite <- app_assoc. reflexivity.
    + unfold odict_keys in *. rewrite fmap_app, <- app_assoc. exact Hnd.
Qed.

Lemma kept_keys_sublist (l : odict RawRow) :
  sublist (odict_keys (omap kept l)) (odict_keys l).
Proof.
  unfold odict_keys. induction l as [|[k row] l IH]; [constructor|].
  cbn [omap list_omap]. unfold kept at 1. cbn [fst snd].
  destruct (clean_row k row).
  - rewrite !fmap_cons. apply sublist_skip. exact IH.
  - rewrite fmap_cons. apply sublist_cons. exact IH.
Qed.

Lemma filter_omap (consolidated : odict RawRow) :
  NoDup (odict_keys consolidated) ->
  filter_and_clean_stops consolidated = omap kept consolidated.
Proof. intros Hnd. apply (filter_fold_fresh consolidated []), Hnd. Qed.

(** X9: on a mapping with pairwise distinct keys the stop filter keeps
    the order: its output is the list of the rows that pass, each with its
    record, in the order of the input; so it never holds more entries than
    the input, and its keys form a sublist of the input's keys. *)
Theorem X9_filter_keeps_order (consolidated : odict RawRow) :
  NoDup (odict_keys consolidated) ->
  filter_and_clean_stops consolidated = omap kept consolidated /\
  sublist (odict_keys (filter_and_clean_stops consolidated)) (odict_keys consolidated) /\
  (length (filter_and_clean_stops consolidated) <= length consolidated)%nat.
Proof.
  intros Hnd. pose proof (filter_omap consolidated Hnd) as E.
  split; [exact E|]. rewrite E. split; [apply kept_keys_sublist|].
  pose proof (sublist_length _ _ (kept_keys_sublist consolidated)) as H.
  unfold odict_keys in H. rewrite !length_fmap in H. exact H.
Qed.

Lemma X9_witness :
  odict_keys (filter_and_clean_stops
                [("A_1", stop_ok); ("A_2", stop_na); ("A_3", stop_entrance);
                 ("A_4", stop_alias)]) = ["A_1"; "A_4"].
Proof.
  rewrite (proj1 (X9_filter_keeps_order
                    [("A_1", stop_ok); ("A_2", stop_na); ("A_3", stop_entrance);
                     ("A_4", stop_alias)]
                    ltac:(vm_compute; repeat constructor;
                          intros H; repeat (apply elem_of_cons in H as [H|H];
                                            [discriminate|]); inversion H))).
  vm_compute. reflexivity.
Defined.

(** X10: every CleanStop record of a run carries its provenance: its
    [stop_id] is its key, and the key is the harmonised id of the agency
    and original stop id the record names. *)
Theorem X10_clean_stops_carry_provenance
    (datasets : odict Dataset) (prefix : bool) (sid : string) (c : CleanStop) :
  (sid, c) ∈ filter_and_clean_stops (harmonize_and_consolidate datasets prefix).1 ->
  cs_stop_id c = sid /\
  exists ag s,
    cs_agency c = Some ag /\ cs_orig_stop_id c = Some s /\
    s <> "" /\ sid = new_id prefix ag s /\ ag ∈ odict_keys datasets.
Proof.
  intros H. apply filter_elem in H as (row' & Hin & Hc).
  apply consolidated_elem in Hin as (ag & ds & row & Hd & _ & Hcand).
  apply candidate_inv in Hcand as (Hne & [= -> ->]).
  unfold clean_row in Hc.
  destruct (Py.float (lat_field _)); [|discriminate].
  destruct (Py.float (lon_field _)); [|discriminate].
  destruct (negb _); [discriminate|]. injection Hc as <-. simpl.
  split; [reflexivity|]. exists ag, (key_of "stop_id" row).
  split; [apply consolidated_row_agency|]. split.
  { unfold consolidated_row. rewrite lookup_insert_ne by discriminate.
    apply lookup_insert_eq. }
  split; [exact Hne|]. split; [reflexivity|].
  unfold odict_keys. change ag with ((ag, ds).1). apply list_elem_of_fmap_2, Hd.
Qed.

Lemma X10_witness :
  exists ag s, new_id true ag s = "B_7" /\ ag ∈ odict_keys padded_agencies.
Proof.
  assert (Hin : ("B_7", {| cs_stop_id := "B_7"; cs_orig_stop_id := Some "7";
                           cs_agency := Some "B"; cs_stop_name := "";
                           cs_stop_code := ""; cs_location_type := 0;
                           cs_parent_station := "";
                           cs_stop_lat := Py.Fdec false 351 (-1);
                           cs_stop_lon := Py.Fdec false 333 (-1) |})
                ∈ filter_and_clean_stops (harmonize_and_consolidate padded_agencies true).1)
    by (vm_compute; right; left).
  destruct (X10_clean_stops_carry_provenance _ _ _ _ Hin)
    as (_ & ag & s & _ & _ & _ & H1 & H2).
  exists ag, s. split; [symmetry; exact H1|exact H2].
Defined.

(** X20: on a mapping with pairwise distinct keys, [filter_and_clean_stops]
    keeps a row exactly when [float] accepts both its latitude field
    ([stop_lat], else [lat]) and its longitude field ([stop_lon], else
    [lon]) and its location type reads as 0 or 1; a row one of whose
    coordinates is missing, or rejected by [float], is dropped. *)
Theorem X20_kept_iff_float_accepts_coordinates
    (consolidated : odict RawRow) (sid : string) (row : RawRow) :
  NoDup (odict_keys consolidated) ->
  (sid, row) ∈ consolidated ->
  let clean := filter_and_clean_stops consolidated in
  (is_Some (odict_get sid clean) <->
     is_Some (Py.float (lat_field row)) /\ is_Some (Py.float (lon_field row)) /\
     (location_type_of row = 0 \/ location_type_of row = 1)) /\
  (Py.float (lat_field row) = None \/ Py.float (lon_field row) = None ->
     odict_get sid clean = None) /\
  (row !! "stop_lat" = None /\ row !! "lat" = None \/
   row !! "stop_lon" = None /\ row !! "lon" = None ->
     odict_get sid clean = None).
Proof.
  intros Hnd Hin clean. unfold clean. rewrite (filter_get _ _ _ Hnd Hin).
  assert (Hdrop : Py.float (lat_field row) = None \/ Py.float (lon_field row) = None ->
                  clean_row sid row = None).
  { intros H. apply eq_None_not_Some. rewrite clean_row_is_Some.
    intros ([? Ha] & [? Hb] & _). destruct H; congruence. }
  split; [apply clean_row_is_Some|]. split; [exact Hdrop|].
  intros [[H1 H2]|[H1 H2]]; apply Hdrop; [left|right].
  - unfold lat_field. rewrite or_get_None_empty by assumption. reflexivity.
  - unfold lon_field. rewrite or_get_None_empty by assumption. reflexivity.
Qed.

(** A stop with valid coordinates is kept; one with the latitude N/A is
    dropped. *)
Lemma X20_witness :
  is_Some (odict_get "A_1" (filter_and_clean_stops [("A_1", stop_ok)])) /\
  odict_get "A_1" (filter_and_clean_stops [("A_1", stop_na)]) = None.
Proof.
  split.
  - assert (Hnd : NoDup (odict_keys [("A_1", stop_ok)])) by apply NoDup_singleton.
    assert (Hin : ("A_1", stop_ok) ∈ [("A_1", stop_ok)]) by left.
    destruct (X20_kept_iff_float_accepts_coordinates _ _ _ Hnd Hin) as (H & _ & _).
    apply H. split; [vm_compute; eauto|]. split; [vm_compute; eauto|].
    left. vm_compute. reflexivity.
  - assert (Hnd : NoDup (odict_keys [("A_1", stop_na)])) by apply NoDup_singleton.
    assert (Hin : ("A_1", stop_na) ∈ [("A_1", stop_na)]) by left.
    destruct (X20_kept_iff_float_accepts_coordinates _ _ _ Hnd Hin) as (_ & H & _).
    apply H. left. vm_compute. reflexivity.
Defined.

(* ===================================================================== *)
(** ** Further properties: route index, join and assembly *)
(* ===================================================================== *)

Lemma strip_empty_of_empty (s : string) : s = "" -> Py.strip s = "".
Proof. intros ->. reflexivity. Qed.

Lemma route_entry_inv (pfx ag : string) (r : RawRow) (k : string) (m : RouteMeta) :
  route_entry pfx ag r = Some (k, m) ->
  key_of "route_id" r <> "" /\ k = pfx +:+ key_of "route_id" r /\
  route_id m = k /\ agency m = ag /\ route_short_name m <> "" /\
  route_short_name m =
    Py.or_else (Py.or_get (r !! "route_short_name") (r !! "route_id")) "".
Proof.
  unfold route_entry. destruct (Py.truthy (key_of "route_id" r)) eqn:E; [|discriminate].
  intros [= <- <-]. simpl. apply truthy_true_iff in E.
  repeat (split; [first [exact E|reflexivity]|]). split; [|reflexivity].
  unfold key_of in E. destruct (r !! "route_id") as [v|] eqn:Ev.
  - destruct v as [|c v]; [exfalso; apply E; reflexivity|].
    destruct (r !! "route_short_name") as [[|d w]|]; simpl; discriminate.
  - exfalso. apply E. reflexivity.
Qed.

(** X11: every entry of [route_info] is filed under its own [route_id],
    names an agency of the datasets and has a non-empty short name (the
    raw [route_id] of the row when the row has no [route_short_name]); so a
    route id known to [route_info] is always shown by that short name. *)
Theorem X11_route_info_entries
    (datasets : odict Dataset) (prefix : bool) (k : string) (m : RouteMeta) :
  (build_route_mappings datasets prefix).1 !! k = Some m ->
  route_id m = k /\
  agency m ∈ odict_keys datasets /\
  route_short_name m <> "" /\
  display_route (build_route_mappings datasets prefix).1 k = route_short_name m /\
  exists ds r,
    (agency m, ds) ∈ datasets /\ r ∈ routes ds /\
    k = ag_prefix prefix (agency m) +:+ Py.strip (Py.or_else (r !! "route_id") "") /\
    route_short_name m =
      Py.or_else (Py.or_get (r !! "route_short_name") (r !! "route_id")) "".
Proof.
  intros H. unfold display_route. rewrite H.
  rewrite route_info_lookup in H. apply assoc_last_elem in H.
  apply route_entries_elem in H as (ag & ds & r & Hd & Hr & He).
  apply route_entry_inv in He as (_ & Hk & Hid & Hag & Hne & Hsn). subst ag.
  split; [exact Hid|]. split.
  { unfold odict_keys. change (agency m) with ((agency m, ds).1).
    apply list_elem_of_fmap_2, Hd. }
  split; [exact Hne|]. split.
  { apply truthy_true_iff in Hne. rewrite Hne. reflexivity. }
  exists ds, r. auto.
Qed.

Lemma X11_witness :
  display_route (build_route_mappings [("A", two_routes_ds)] true).1 "A_R" = "12".
Proof.
  assert (H : (build_route_mappings [("A", two_routes_ds)] true).1 !! "A_R" =
              Some {| route_id := "A_R"; route_short_name := "12";
                      route_long_name := ""; agency := "A" |})
    by (vm_compute; reflexivity).
  destruct (X11_route_info_entries _ _ _ _ H) as (_ & _ & _ & Hd & _). exact Hd.
Defined.

Lemma trip_entry_inv (pfx : string) (t : RawRow) (k v : string) :
  trip_entry pfx t = Some (k, v) ->
  key_of "trip_id" t <> "" /\ key_of "route_id" t <> "" /\
  k = pfx +:+ key_of "trip_id" t /\ v = pfx +:+ key_of "route_id" t.
Proof.
  unfold trip_entry. destruct (Py.truthy (key_of "trip_id" t)) eqn:E1; [|discriminate].
  destruct (Py.truthy (key_of "route_id" t)) eqn:E2; [|discriminate].
  intros [= <- <-]. apply truthy_true_iff in E1. apply truthy_true_iff in E2. auto.
Qed.

(** X12: whatever [trip_to_route] holds was written by a trips row with a
    non-empty trip id and a non-empty route id, and the route id carries
    the prefix of the agency of that very row: a trip never resolves to an
    empty id, nor, with prefixing, to an id under another agency's prefix. *)
Theorem X12_trip_to_route_entries
    (datasets : odict Dataset) (prefix : bool) (k v : string) :
  (build_route_mappings datasets prefix).2 !! k = Some v ->
  v <> "" /\
  exists ag ds t,
    (ag, ds) ∈ datasets /\ t ∈ trips ds /\
    let tid := Py.strip (Py.or_else (t !! "trip_id") "") in
    let rid := Py.strip (Py.or_else (t !! "route_id") "") in
    tid <> "" /\ rid <> "" /\
    k = ag_prefix prefix ag +:+ tid /\ v = ag_prefix prefix ag +:+ rid.
Proof.
  intros H. split; [exact (trip_to_route_value _ _ _ _ H)|].
  rewrite trip_to_route_lookup in H. apply assoc_last_elem in H.
  apply trip_entries_elem in H as (ag & ds & t & Hd & Ht & He).
  apply trip_entry_inv in He as (H1 & H2 & H3 & H4).
  exists ag, ds, t. cbv zeta. unfold key_of in *. auto 10.
Qed.

Lemma X12_witness :
  exists ag, "A_T" = ag_prefix true ag +:+ "T" /\ "A_R" = ag_prefix true ag +:+ "R".
Proof.
  assert (H : (build_route_mappings [("A", two_routes_ds)] true).2 !! "A_T" = Some "A_R")
    by (vm_compute; reflexivity).
  destruct (X12_trip_to_route_entries _ _ _ _ H) as (_ & ag & ds & t & Hd & Ht & H').
  cbv zeta in H'. destruct H' as (_ & _ & H1 & H2).
  apply list_elem_of_singleton in Hd. injection Hd as -> ->.
  exists "A". split; reflexivity.
Defined.

Lemma collect_nonempty (datasets : odict Dataset) (t2r : gmap string string)
    (prefix : bool) (sid : string) (v : gset string) :
  collect_stop_routes datasets t2r prefix !! sid = Some v -> v <> ∅.
Proof.
  rewrite collect_links. revert sid v.
  apply (fold_left_inv
           (fun sr : gmap string (gset string) => forall sid v, sr !! sid = Some v -> v <> ∅)).
  - intros sid v H. rewrite lookup_empty in H. discriminate.
  - intros sr [s0 t0] _ IH sid v. unfold link_step. simpl.
    destruct (t2r !! t0) as [r0|]; [|apply IH].
    destruct (Py.truthy r0); [|apply IH].
    destruct (decide (s0 = sid)) as [->|Hne].
    + rewrite lookup_insert_eq. intros [= <-]. set_solver.
    + rewrite lookup_insert_ne by exact Hne. apply IH.
Qed.

(** X13: every list that [build_stop_to_routes] returns is sorted in
    ascending order of the route ids, has no duplicate and is not empty,
    whatever order the route sets are read in. *)
Theorem X13_stop_routes_sorted_distinct_nonempty
    (set_order : gset string -> list string)
    (datasets : odict Dataset) (t2r : gmap string string) (prefix : bool)
    (sid : string) (l : list string) :
  (forall s, set_order s ≡ₚ elements s) ->
  build_stop_to_routes_in set_order datasets t2r prefix !! sid = Some l ->
  Sorted String.le l /\ NoDup l /\ l <> [].
Proof.
  intros Hord. unfold build_stop_to_routes_in. rewrite lookup_fmap.
  destruct (collect_stop_routes datasets t2r prefix !! sid) as [v|] eqn:E; [|discriminate].
  simpl. intros [= <-].
  assert (Hp : sorted (set_order v) ≡ₚ elements v).
  { unfold sorted. rewrite merge_sort_Permutation. apply Hord. }
  split; [apply Sorted_merge_sort; apply _|]. split.
  - rewrite Hp. apply NoDup_elements.
  - intros Hnil. rewrite Hnil in Hp. symmetry in Hp. apply Permutation_nil_r in Hp.
    apply elements_empty_inv in Hp. apply (collect_nonempty _ _ _ _ _ E).
    apply leibniz_equiv, Hp.
Qed.

Lemma X13_witness :
  Sorted String.le ["A_Q"; "A_R"] /\ NoDup ["A_Q"; "A_R"].
Proof.
  assert (H : build_stop_to_routes_in (fun s => reverse (elements s))
                [("A", two_routes_ds)]
                (build_route_mappings [("A", two_routes_ds)] true).2 true !! "A_1" =
              Some ["A_Q"; "A_R"])
    by (vm_compute; reflexivity).
  destruct (X13_stop_routes_sorted_distinct_nonempty _ _ _ _ _ _
              (fun s => reverse_Permutation (elements s)) H) as (H1 & H2 & _).
  split; assumption.
Defined.

(** X14: [build_stop_to_routes] has an entry for a harmonised stop id
    exactly when some stop_times row with non-empty stop and trip ids names
    that stop and a trip that [trip_to_route] resolves; stops of stop_times
    whose trips all fail to resolve get no entry. *)
Theorem X14_stop_routes_domain
    (set_order : gset string -> list string)
    (datasets : odict Dataset) (t2r : gmap string string) (prefix : bool)
    (sid : string) :
  is_Some (build_stop_to_routes_in set_order datasets t2r prefix !! sid) <->
  exists ag ds st rid,
    (ag, ds) ∈ datasets /\ st ∈ stop_times ds /\
    let s := Py.strip (Py.or_else (st !! "stop_id") "") in
    let t := Py.strip (Py.or_else (st !! "trip_id") "") in
    s <> "" /\ t <> "" /\
    sid = ag_prefix prefix ag +:+ s /\
    t2r !! (ag_prefix prefix ag +:+ t) = Some rid /\ rid <> "".
Proof.
  unfold build_stop_to_routes_in. rewrite lookup_fmap, fmap_is_Some. cbv zeta.
  pose proof (fun rid => link_fold_elem t2r (stop_time_links prefix datasets) ∅ sid rid) as H.
  rewrite <- collect_links in H. split.
  - intros [v Hv]. pose proof (collect_nonempty _ _ _ _ _ Hv) as Hne.
    apply set_choose_L in Hne as [rid Hrid].
    specialize (H rid). rewrite Hv in H. simpl in H.
    apply H in Hrid as [Hrid|(tid & Hin & Ht & Hr)].
    + rewrite lookup_empty in Hrid. simpl in Hrid. set_solver.
    + apply stop_time_links_elem in Hin as (ag & ds & st & Hd & Hs & Hl).
      unfold stop_time_link in Hl.
      destruct (Py.truthy (key_of "stop_id" st)) eqn:E1; [|discriminate].
      destruct (Py.truthy (key_of "trip_id" st)) eqn:E2; [|discriminate].
      cbn [andb] in Hl. injection Hl as Hs1 Ht1. subst sid tid.
      apply truthy_true_iff in E1. apply truthy_true_iff in E2.
      exists ag, ds, st, rid. unfold key_of in *. auto 10.
  - intros (ag & ds & st & rid & Hd & Hs & H1 & H2 & -> & Ht & Hr).
    specialize (H rid).
    assert (Hin : rid ∈ default ∅
                    (collect_stop_routes datasets t2r prefix
                       !! (ag_prefix prefix ag +:+ Py.strip (Py.or_else (st !! "stop_id") "")))).
    { apply H. right. exists (ag_prefix prefix ag +:+ Py.strip (Py.or_else (st !! "trip_id") "")).
      split; [|auto]. apply stop_time_links_elem. exists ag, ds, st.
      split; [exact Hd|]. split; [exact Hs|]. apply stop_time_link_Some; assumption. }
    destruct (collect_stop_routes datasets t2r prefix !! _); [eauto|].
    simpl in Hin. set_solver.
Qed.

(** X15: with enrichment on, the [routes_serving] list of a feature holds
    one name per distinct route id joined to the stop, in ascending order
    of the route ids (not of the names): names are neither sorted nor
    deduplicated, and the length of the list is the number of routes. *)
Theorem X15_routes_serving_one_name_per_route
    (set_order : gset string -> list string) (now : string) (prefix : bool)
    (datasets : odict Dataset) (f : Feature) :
  (forall s, set_order s ≡ₚ elements s) ->
  f ∈ features (process set_order now prefix false datasets) ->
  let route_info := (build_route_mappings datasets prefix).1 in
  let trip_to_route := (build_route_mappings datasets prefix).2 in
  let rs := default ∅ (collect_stop_routes datasets trip_to_route prefix !! f_id f) in
  routes_serving (properties f) = display_route route_info <$> sorted (elements rs) /\
  length (routes_serving (properties f)) = size rs.
Proof.
  intros Hord Hf. cbv zeta. rewrite process_unfold in Hf. cbn [negb] in Hf.
  apply create_geojson_elem in Hf as (sid & s & _ & ->).
  rewrite make_feature_routes. cbn [f_id make_feature].
  rewrite (build_stop_to_routes_order set_order elements) by (intros; auto).
  unfold build_stop_to_routes_in. rewrite lookup_fmap.
  assert (E : default [] ((fun v => sorted (elements v))
                <$> collect_stop_routes datasets (build_route_mappings datasets prefix).2
                      prefix !! sid) =
              sorted (elements (default ∅
                (collect_stop_routes datasets (build_route_mappings datasets prefix).2
                   prefix !! sid)))).
  { destruct (collect_stop_routes _ _ _ !! sid); [reflexivity|].
    simpl. rewrite elements_empty. reflexivity. }
  rewrite E. split; [reflexivity|].
  rewrite length_fmap. unfold sorted. rewrite merge_sort_Permutation. reflexivity.
Qed.

(** Two routes with the short name 12 at one stop: the name comes twice. *)
Lemma X15_witness :
  exists f, routes_serving (properties f) = ["12"; "12"] /\
            length (routes_serving (properties f)) =
            size (default ∅ (collect_stop_routes [("A", shared_name_ds)]
                               (build_route_mappings [("A", shared_name_ds)] true).2 true
                               !! f_id f)).
Proof.
  set (f := make_feature
              (build_stop_to_routes_in elements [("A", shared_name_ds)]
                 (build_route_mappings [("A", shared_name_ds)] true).2 true)
              (build_route_mappings [("A", shared_name_ds)] true).1 "A_1"
              {| cs_stop_id := "A_1"; cs_orig_stop_id := Some "1";
                 cs_agency := Some "A"; cs_stop_name := ""; cs_stop_code := "";
                 cs_location_type := 0; cs_parent_station := "";
                 cs_stop_lat := Py.Fdec false 351 (-1);
                 cs_stop_lon := Py.Fdec false 333 (-1) |}).
  assert (Hin : f ∈ features (process elements a_date true false [("A", shared_name_ds)])).
  { rewrite process_unfold. apply create_geojson_elem. eexists _, _.
    split; [|reflexivity]. vm_compute. left. }
  destruct (X15_routes_serving_one_name_per_route elements a_date true _ f
              (fun s => reflexivity _) Hin) as [_ H2].
  exists f. split; [vm_compute; reflexivity|exact H2].
Defined.

Lemma make_feature_cleared (stop_routes : gmap string (list string))
    (route_info : gmap string RouteMeta) (sid : string) (s : CleanStop) :
  make_feature ∅ route_info sid s =
  clear_routes (make_feature stop_routes route_info sid s).
Proof. unfold make_feature, clear_routes. rewrite lookup_empty. reflexivity. Qed.

(** X16: skipping the enrichment changes nothing but [routes_serving]: the
    features of a run with [--skip-enrich] are those of the run without it,
    in the same order, with their [routes_serving] emptied. *)
Theorem X16_skip_enrich_only_empties_routes
    (set_order : gset string -> list string) (now : string) (prefix : bool)
    (datasets : odict Dataset) :
  features (process set_order now prefix true datasets) =
  clear_routes <$> features (process set_order now prefix false datasets).
Proof.
  rewrite !process_unfold, !create_geojson_features, <- list_fmap_compose.
  apply list_fmap_ext. intros i [sid s] _. cbn [negb compose fst snd].
  apply make_feature_cleared.
Qed.

(** X17: a run emits one feature per CleanStop, in the order of the
    consolidated mapping; the feature ids are pairwise distinct, each is
    a key of the consolidated mapping, and each feature repeats its id
    as [stop_id] in its properties. *)
Theorem X17_feature_ids_distinct_and_in_load_order
    (set_order : gset string -> list string) (now : string)
    (prefix skip_enrich : bool) (datasets : odict Dataset) :
  let fs := features (process set_order now prefix skip_enrich datasets) in
  let consolidated := (harmonize_and_consolidate datasets prefix).1 in
  f_id <$> fs = odict_keys (filter_and_clean_stops consolidated) /\
  NoDup (f_id <$> fs) /\
  sublist (f_id <$> fs) (odict_keys consolidated) /\
  Forall (fun f => p_stop_id (properties f) = f_id f) fs.
Proof.
  cbv zeta. rewrite process_unfold, create_geojson_features.
  pose proof (consolidated_nodup datasets prefix) as Hnd.
  assert (Hsub : sublist (odict_keys (filter_and_clean_stops
                                        (harmonize_and_consolidate datasets prefix).1))
                         (odict_keys (harmonize_and_consolidate datasets prefix).1)).
  { rewrite (filter_omap _ Hnd). apply kept_keys_sublist. }
  assert (E : f_id <$> ((fun p : string * CleanStop => make_feature
                (if negb skip_enrich
                 then build_stop_to_routes_in set_order datasets
                        (build_route_mappings datasets prefix).2 prefix
                 else ∅) (build_route_mappings datasets prefix).1 p.1 p.2)
              <$> filter_and_clean_stops (harmonize_and_consolidate datasets prefix).1) =
             odict_keys (filter_and_clean_stops (harmonize_and_consolidate datasets prefix).1)).
  { rewrite <- list_fmap_compose. reflexivity. }
  rewrite E. split; [reflexivity|]. split; [exact (sublist_NoDup _ _ Hnd Hsub)|].
  split; [exact Hsub|].
  apply Forall_fmap, Forall_forall. intros [sid c] Hin. simpl.
  apply filter_elem in Hin as (row & _ & Hc).
  apply clean_row_Some in Hc as (_ & _ & _ & _ & Hid). exact Hid.
Qed.

(** X18: when no stop row has a non-empty [stop_id] (empty stops tables,
    or a missing or blank [stop_id] column), the run still gives a
    document, with no feature. *)
Theorem X18_no_stop_ids_no_features
    (set_order : gset string -> list string) (now : string)
    (prefix skip_enrich : bool) (datasets : odict Dataset) :
  (forall ag ds row, (ag, ds) ∈ datasets -> row ∈ stops ds ->
     Py.strip (Py.or_else (row !! "stop_id") "") = "") ->
  (harmonize_and_consolidate datasets prefix).1 = [] /\
  features (process set_order now prefix skip_enrich datasets) = [].
Proof.
  intros H.
  assert (E : (harmonize_and_consolidate datasets prefix).1 = []).
  { destruct (harmonize_and_consolidate datasets prefix).1 as [|p l] eqn:E; [reflexivity|].
    exfalso. assert (Hp : p ∈ (harmonize_and_consolidate datasets prefix).1)
      by (rewrite E; left).
    apply consolidated_elem in Hp as (ag & ds & row & Hd & Hr & Hc).
    apply candidate_inv in Hc as [Hne _]. apply Hne, (H ag ds row Hd Hr). }
  split; [exact E|]. rewrite process_unfold, E. reflexivity.
Qed.

Lemma X18_witness :
  features (process elements a_date true false blank_agencies) = [].
Proof.
  apply (X18_no_stop_ids_no_features elements a_date true false blank_agencies).
  intros ag ds row Hd Hr.
  apply elem_of_cons in Hd as [Hd|Hd]; [|apply list_elem_of_singleton in Hd];
    injection Hd as -> ->; apply list_elem_of_singleton in Hr; subst row;
    vm_compute; reflexivity.
Defined.

Lemma same_stop_time_rows_links (prefix : bool) (d d' : odict Dataset)
    (p : string * string) :
  same_stop_time_rows d d' ->
  p ∈ stop_time_links prefix d -> p ∈ stop_time_links prefix d'.
Proof.
  intros H Hp. apply stop_time_links_elem in Hp as (ag & ds & st & Hd & Hs & Hl).
  apply list_elem_of_lookup in Hd as [i Hi].
  destruct (Forall2_lookup_l _ _ _ _ _ H Hi) as ([ag' ds'] & Hi' & Hag & Hst).
  simpl in Hag, Hst. subst ag'.
  apply stop_time_links_elem. exists ag, ds', st.
  split; [apply list_elem_of_lookup; eauto|]. split; [apply Hst, Hs|exact Hl].
Qed.

Lemma same_stop_time_rows_sym (d d' : odict Dataset) :
  same_stop_time_rows d d' -> same_stop_time_rows d' d.
Proof.
  unfold same_stop_time_rows. intros H. apply Forall2_flip.
  eapply Forall2_impl; [exact H|]. intros p q [H1 H2]. split; [congruence|].
  intros st. symmetry. apply H2.
Qed.

(** X19: the join does not depend on the order of the stop_times rows, nor
    on how often a row is repeated: datasets that hold, agency by agency,
    the same stop_times rows give the same [build_stop_to_routes] result. *)
Theorem X19_stop_times_order_and_repeats_do_not_matter
    (set_order : gset string -> list string)
    (d d' : odict Dataset) (t2r : gmap string string) (prefix : bool) :
  same_stop_time_rows d d' ->
  build_stop_to_routes_in set_order d t2r prefix =
  build_stop_to_routes_in set_order d' t2r prefix.
Proof.
  intros Hsame. unfold build_stop_to_routes_in. f_equal. apply map_eq. intros sid.
  assert (Hel : forall rid,
             rid ∈ default ∅ (collect_stop_routes d t2r prefix !! sid) <->
             rid ∈ default ∅ (collect_stop_routes d' t2r prefix !! sid)).
  { intros rid. rewrite !collect_links, !link_fold_elem, lookup_empty. simpl. split.
    - intros [H|(tid & H1 & H2)]; [left; exact H|]. right. exists tid. split; [|exact H2].
      apply (same_stop_time_rows_links prefix d d'); assumption.
    - intros [H|(tid & H1 & H2)]; [left; exact H|]. right. exists tid. split; [|exact H2].
      apply (same_stop_time_rows_links prefix d' d);
        [apply same_stop_time_rows_sym|]; assumption. }
  destruct (collect_stop_routes d t2r prefix !! sid) as [v|] eqn:E;
    destruct (collect_stop_routes d' t2r prefix !! sid) as [v'|] eqn:E';
    simpl in Hel.
  - f_equal. apply set_eq. exact Hel.
  - exfalso. apply (collect_nonempty _ _ _ _ _ E). apply set_eq. exact Hel.
  - exfalso. apply (collect_nonempty _ _ _ _ _ E'). apply set_eq.
    intros x. symmetry. apply Hel.
  - reflexivity.
Qed.

Lemma X19_witness :
  build_stop_to_routes_in elements [("A", shared_name_ds)]
    (build_route_mappings [("A", shared_name_ds)] true).2 true =
  build_stop_to_routes_in elements [("A", shared_name_ds')]
    (build_route_mappings [("A", shared_name_ds)] true).2 true.
Proof.
  apply X19_stop_times_order_and_repeats_do_not_matter.
  constructor; [|constructor]. split; [reflexivity|]. intros st.
    unfold shared_name_ds, shared_name_ds'. cbn [snd stop_times].
    rewrite !elem_of_cons, !elem_of_nil. tauto.
Defined.
